(** * Users-API: the account server of [server/index.js]

    A shallow embedding of the Express handlers ([verifyUser], [/register],
    [/login], [/users], [/block], [/unblock], [/delete]) over an explicit model
    of the [users] table, followed by the properties of the account life cycle.

    What lies outside [index.js] is taken as an interface:
    - [bcryptjs], [jsonwebtoken] and PostgreSQL's reading of an integer from
      text are type classes with the laws the handlers rely on; [Toy] gives
      small executable instances;
    - the PostgreSQL statements are given their documented meaning on a table
      held as a list of rows in insertion order together with the [SERIAL]
      sequence of the [id] column;
    - request bodies are typed: [name], [email], [password] are absent or
      strings; [userIds] is absent or an array whose elements are integer
      numbers (what the client sends: the ids it received from [/users]) or
      strings; strings are sequences of characters;
    - the store is reachable and [JWT_SECRET] is set: a failing connection
      and a missing secret are not modelled;
    - a route is modelled as it is registered, the middleware followed by
      the handler; how Express picks the route for a request (the order of
      registration, the static files, the catch-all [app.get('*')]) is not
      modelled. *)

From Stdlib Require Import ZArith List String Ascii Bool Lia.
From Stdlib Require Import Permutation Sorted.
Import ListNotations.

Open Scope Z_scope.
Open Scope string_scope.

(* ===================================================================== *)
(** ** The [users] table *)
(* ===================================================================== *)

(** One row of
    [CREATE TABLE users (id SERIAL PRIMARY KEY, name VARCHAR(255) NOT NULL,
     email VARCHAR(255) UNIQUE NOT NULL, password VARCHAR(255) NOT NULL,
     status VARCHAR(50) DEFAULT 'active', last_login TIMESTAMP DEFAULT NULL)].
    A timestamp is a number of seconds; [None] is SQL [NULL]. *)
Record user : Type := mkUser {
  user_id : Z;
  user_name : string;
  user_email : string;
  user_password : string;
  user_status : string;
  user_last_login : option Z
}.

(** The table and the sequence behind [id SERIAL]: [users_id_seq] is the value
    the next [nextval] returns. *)
Record database : Type := mkDb {
  users : list user;
  users_id_seq : Z
}.

(** The table as [CREATE TABLE IF NOT EXISTS] leaves it on first start. *)
Definition empty_database : database := {| users := []; users_id_seq := 1 |}.

Record pg_error : Type := mkPgError {
  pg_code : string;
  pg_message : string
}.

Definition unique_violation : pg_error :=
  {| pg_code := "23505";
     pg_message := "duplicate key value violates unique constraint" |}.

Definition string_data_right_truncation : pg_error :=
  {| pg_code := "22001";
     pg_message := "value too long for type character varying(255)" |}.

Definition with_status (st : string) (u : user) : user :=
  {| user_id := user_id u; user_name := user_name u; user_email := user_email u;
     user_password := user_password u; user_status := st;
     user_last_login := user_last_login u |}.

Definition with_last_login (t : option Z) (u : user) : user :=
  {| user_id := user_id u; user_name := user_name u; user_email := user_email u;
     user_password := user_password u; user_status := user_status u;
     user_last_login := t |}.

(** [x = ANY(ids)] in SQL, for the integers read from the parameter, and
    [ids.includes(x)] in JavaScript on an array of numbers. *)
Definition includes (ids : list Z) (x : Z) : bool := existsb (Z.eqb x) ids.

(** An element of the [userIds] array of a body: a number, which is an
    integer, or a string. *)
Inductive id_value : Type :=
| IdNumber (n : Z)
| IdString (s : string).

(** [userIds.includes(x)] for a number [x]: JavaScript finds [x] only in an
    element that is the number [x]; no string is equal to a number. *)
Definition js_includes (userIds : list id_value) (x : Z) : bool :=
  existsb (fun v => match v with
                    | IdNumber n => (n =? x)%Z
                    | IdString _ => false
                    end) userIds.

(** The values of the type [integer] of the column [id]. *)
Definition in_int4 (z : Z) : bool :=
  (-2147483648 <=? z)%Z && (z <=? 2147483647)%Z.

Definition digit_value (c : ascii) : option Z :=
  let n := Z.of_nat (nat_of_ascii c) in
  if (48 <=? n)%Z && (n <=? 57)%Z then Some (n - 48) else None.

Fixpoint digits_from (acc : Z) (s : string) : option Z :=
  match s with
  | EmptyString => Some acc
  | String c s' =>
      match digit_value c with
      | Some d => digits_from (10 * acc + d) s'
      | None => None
      end
  end.

(** The number that a non-empty string of decimal digits writes. *)
Definition digits_value (s : string) : option Z :=
  match s with
  | EmptyString => None
  | _ => digits_from 0 s
  end.

(** PostgreSQL reading an [integer] from the text of an array element:
    [int4in s] is the integer, or nothing when the text is refused, which
    makes the statement fail. What is read is in the range of the type, and
    a string of decimal digits is read as the number it writes when that is
    in range and refused otherwise. *)
Class Postgres : Type := {
  int4in : string -> option Z;
  int4in_range : forall s z, int4in s = Some z -> in_int4 z = true;
  int4in_digits :
    forall s n, digits_value s = Some n ->
                int4in s = if in_int4 n then Some n else None
}.

(** An element of the array as PostgreSQL reads it for [id = ANY($n)]: the
    driver sends a number as its decimal digits and a string as it is. *)
Definition int4_of {pg : Postgres} (v : id_value) : option Z :=
  match v with
  | IdNumber n => if in_int4 n then Some n else None
  | IdString s => int4in s
  end.

(** The whole array: every element has to be read. *)
Fixpoint int4_array {pg : Postgres} (l : list id_value) : option (list Z) :=
  match l with
  | [] => Some []
  | v :: l' =>
      match int4_of v, int4_array l' with
      | Some z, Some zs => Some (z :: zs)
      | _, _ => None
      end
  end.

Fixpoint all_spaces (s : string) : bool :=
  match s with
  | EmptyString => true
  | String c s' => Ascii.eqb c " "%char && all_spaces s'
  end.

(** Storing a string in a [VARCHAR(255)] column: a longer value is an error
    unless the excess is made of spaces only, which are cut off. *)
Definition varchar255 (s : string) : option string :=
  if (String.length s <=? 255)%nat then Some s
  else if all_spaces (substring 255 (String.length s - 255) s)
       then Some (substring 0 255 s)
       else None.

(** [SELECT * FROM users WHERE id = $1]; an undefined parameter is sent as
    [NULL], and [id = NULL] selects nothing. *)
Definition select_users_by_id (db : database) (i : option Z) : list user :=
  match i with
  | Some i => filter (fun u => (user_id u =? i)%Z) (users db)
  | None => []
  end.

(** [SELECT * FROM users WHERE email = $1]. *)
Definition select_users_by_email (db : database) (e : option string) : list user :=
  match e with
  | Some e => filter (fun u => String.eqb (user_email u) e) (users db)
  | None => []
  end.

(** [INSERT INTO users (name, email, password) VALUES ($1, $2, $3) RETURNING *].
    A value that does not fit its column stops the statement before anything
    is touched. Otherwise the row takes its [id] from the sequence, which
    keeps the value also when the email is taken; [status] and [last_login]
    take their defaults. *)
Definition insert_user (db : database) (n e p : string)
  : (pg_error + user) * database :=
  let i := users_id_seq db in
  let failed := {| users := users db; users_id_seq := i + 1 |} in
  match varchar255 n, varchar255 e, varchar255 p with
  | Some n', Some e', Some p' =>
      if existsb (fun u => String.eqb (user_email u) e') (users db)
      then (inl unique_violation, failed)
      else
        let row := {| user_id := i; user_name := n'; user_email := e';
                      user_password := p'; user_status := "active";
                      user_last_login := None |} in
        (inr row, {| users := users db ++ [row]; users_id_seq := i + 1 |})
  | _, _, _ => (inl string_data_right_truncation, db)
  end.

(** [UPDATE users SET last_login = NOW() WHERE id = $1]. *)
Definition update_last_login (db : database) (now : Z) (i : Z) : database :=
  {| users := map (fun u => if (user_id u =? i)%Z
                            then with_last_login (Some now) u else u) (users db);
     users_id_seq := users_id_seq db |}.

(** The rows after [UPDATE users SET status = $1 WHERE id = ANY($2)], for
    the integers [ids] read from [$2]. *)
Definition update_rows (db : database) (st : string) (ids : list Z) : database :=
  {| users := map (fun u => if includes ids (user_id u)
                            then with_status st u else u) (users db);
     users_id_seq := users_id_seq db |}.

(** [UPDATE users SET status = $1 WHERE id = ANY($2)]: [None] is the
    statement failing, which it does, before any row is touched, when an
    element of [$2] is not read as an [integer]. With [$2] [NULL] the
    condition is [NULL] for every row and nothing is updated. *)
Definition update_status {pg : Postgres} (db : database) (st : string)
    (ids : option (list id_value)) : option database :=
  match ids with
  | Some l => option_map (update_rows db st) (int4_array l)
  | None => Some db
  end.

(** The rows after [DELETE FROM users WHERE id = ANY($1)], for the integers
    [ids] read from [$1]. *)
Definition delete_rows (db : database) (ids : list Z) : database :=
  {| users := filter (fun u => negb (includes ids (user_id u))) (users db);
     users_id_seq := users_id_seq db |}.

(** [DELETE FROM users WHERE id = ANY($1)], failing like the update. *)
Definition delete_users {pg : Postgres} (db : database)
    (ids : option (list id_value)) : option database :=
  match ids with
  | Some l => option_map (delete_rows db) (int4_array l)
  | None => Some db
  end.

(** The order of [ORDER BY last_login DESC]: PostgreSQL sorts [NULL] as larger
    than every value, so that it comes first in descending order unless
    [NULLS LAST] is written. [last_login_desc a b] says that [a] may stand
    before [b]. *)
Definition last_login_desc (a b : option Z) : bool :=
  match a, b with
  | None, _ => true
  | Some _, None => false
  | Some x, Some y => (y <=? x)%Z
  end.

Fixpoint insert_desc (u : user) (l : list user) : list user :=
  match l with
  | [] => [u]
  | v :: l' =>
      if last_login_desc (user_last_login u) (user_last_login v)
      then u :: v :: l'
      else v :: insert_desc u l'
  end.

(** The rows in that order; rows with equal keys, whose order SQL leaves open,
    keep their table order. *)
Definition order_by_last_login_desc (l : list user) : list user :=
  fold_right insert_desc [] l.

(* ===================================================================== *)
(** ** HTTP requests and responses *)
(* ===================================================================== *)

(** The parsed JSON body, with the fields the handlers destructure. *)
Record body : Type := mkBody {
  body_name : option string;
  body_email : option string;
  body_password : option string;
  body_userIds : option (list id_value)
}.

Record request : Type := mkRequest {
  authorization : option string;
  req_body : body
}.

(** [{ id, name, email, status }] of the login response. *)
Record login_user : Type := mkLoginUser {
  lu_id : Z;
  lu_name : string;
  lu_email : string;
  lu_status : string
}.

(** A row of the [/users] response. *)
Record users_row : Type := mkUsersRow {
  row_id : Z;
  row_name : string;
  row_email : string;
  row_status : string;
  row_last_login : option string
}.

Inductive json : Type :=
| JsonError (error : string)
| JsonMessage (message : string)
| JsonLogin (token : string) (u : login_user)
| JsonRows (rows : list users_row).

Record response : Type := mkResponse {
  res_status : Z;
  res_json : json
}.

(** [s.split(sep)] for a one-character separator. *)
Fixpoint split (sep : ascii) (s : string) : list string :=
  match s with
  | EmptyString => [EmptyString]
  | String c s' =>
      if Ascii.eqb c sep then EmptyString :: split sep s'
      else match split sep s' with
           | w :: ws => String c w :: ws
           | [] => [String c EmptyString]
           end
  end.

(** [!x] for [x] a string or undefined. *)
Definition falsy (x : option string) : bool :=
  match x with
  | None => true
  | Some s => String.eqb s ""
  end.

(** [req.headers['authorization']?.split(' ')[1]]. *)
Definition bearer_token (req : request) : option string :=
  match authorization req with
  | Some h => nth_error (split " "%char h) 1
  | None => None
  end.

(* ===================================================================== *)
(** ** The libraries behind the handlers *)
(* ===================================================================== *)

(** [bcryptjs]: [bcrypt_hash p salt] is [bcrypt.hash(p, 10)] for the salt
    drawn at the call; a hash is 60 characters long and [bcrypt.compare]
    accepts the password it was made from. *)
Class Bcrypt : Type := {
  bcrypt_hash : string -> string -> string;
  bcrypt_compare : string -> string -> bool;
  bcrypt_compare_hash :
    forall p salt, bcrypt_compare p (bcrypt_hash p salt) = true;
  bcrypt_hash_length :
    forall p salt, String.length (bcrypt_hash p salt) = 60%nat
}.

Inductive jwt_error : Type := TokenExpiredError | JsonWebTokenError.

(** The decoded payload; [jwt_id] is [decoded.id]. *)
Record jwt_payload : Type := mkPayload {
  jwt_id : option Z;
  jwt_iat : Z;
  jwt_exp : Z
}.

(** [jsonwebtoken]: [jwt_sign i key ttl clock] is
    [jwt.sign({ id: i }, key, { expiresIn: ttl })] at time [clock] (seconds),
    [jwt_verify token key clock] is [jwt.verify(token, key)], an error standing
    for the exception. Under a key that is set, a signed token verifies
    until it expires. *)
Class Jwt : Type := {
  jwt_sign : Z -> string -> Z -> Z -> string;
  jwt_verify : string -> string -> Z -> jwt_error + jwt_payload;
  jwt_verify_sign :
    forall i key ttl t t',
      key <> "" ->
      jwt_verify (jwt_sign i key ttl t) key t' =
      if (t' <? t + ttl)%Z
      then inr {| jwt_id := Some i; jwt_iat := t; jwt_exp := t + ttl |}
      else inl TokenExpiredError
}.

(** Executable stand-ins for the two libraries, for running the handlers on
    concrete requests. *)
Module Toy.

Fixpoint pad (n : nat) (s : string) : string :=
  match n with
  | O => EmptyString
  | S n' =>
      match s with
      | EmptyString => String "."%char (pad n' EmptyString)
      | String c s' => String c (pad n' s')
      end
  end.

Definition hash (p salt : string) : string := "$2a$10$" ++ pad 53 p.

Definition compare (p h : string) : bool := String.eqb h (hash p "").

Fixpoint enc_pos (p : positive) : string :=
  match p with
  | xH => "."
  | xO q => String "0"%char (enc_pos q)
  | xI q => String "1"%char (enc_pos q)
  end.

Definition enc_Z (z : Z) : string :=
  match z with
  | Z0 => "z"
  | Zpos p => String "p"%char (enc_pos p)
  | Zneg p => String "n"%char (enc_pos p)
  end.

Fixpoint dec_pos (s : string) : option (positive * string) :=
  match s with
  | String "."%char r => Some (xH, r)
  | String "0"%char r =>
      match dec_pos r with Some (q, r') => Some (xO q, r') | None => None end
  | String "1"%char r =>
      match dec_pos r with Some (q, r') => Some (xI q, r') | None => None end
  | _ => None
  end.

Definition dec_Z (s : string) : option (Z * string) :=
  match s with
  | String "z"%char r => Some (0, r)
  | String "p"%char r =>
      match dec_pos r with Some (q, r') => Some (Zpos q, r') | None => None end
  | String "n"%char r =>
      match dec_pos r with Some (q, r') => Some (Zneg q, r') | None => None end
  | _ => None
  end.

(** A token is the id, the issue time and the expiry, followed by the key
    in place of a signature. *)
Definition sign (i : Z) (key : string) (ttl t : Z) : string :=
  enc_Z i ++ enc_Z t ++ enc_Z (t + ttl) ++ key.

Definition verify (token key : string) (clock : Z) : jwt_error + jwt_payload :=
  match dec_Z token with
  | Some (i, r1) =>
      match dec_Z r1 with
      | Some (t, r2) =>
          match dec_Z r2 with
          | Some (e, sig) =>
              if String.eqb sig key then
                if (clock <? e)%Z
                then inr {| jwt_id := Some i; jwt_iat := t; jwt_exp := e |}
                else inl TokenExpiredError
              else inl JsonWebTokenError
          | None => inl JsonWebTokenError
          end
      | None => inl JsonWebTokenError
      end
  | None => inl JsonWebTokenError
  end.

Lemma length_pad (n : nat) (s : string) : String.length (pad n s) = n.
Proof.
  revert s. induction n as [|n IH]; intros s; simpl; [reflexivity|].
  destruct s; simpl; now rewrite IH.
Qed.

Lemma dec_enc_pos (p : positive) (r : string) :
  dec_pos (enc_pos p ++ r) = Some (p, r).
Proof.
  induction p as [q IH|q IH|]; simpl; try rewrite IH; reflexivity.
Qed.

Lemma dec_enc_Z (z : Z) (r : string) : dec_Z (enc_Z z ++ r) = Some (z, r).
Proof.
  destruct z; simpl; try rewrite dec_enc_pos; reflexivity.
Qed.

Lemma compare_hash (p salt : string) : compare p (hash p salt) = true.
Proof. unfold compare, hash. apply String.eqb_refl. Qed.

Lemma hash_length (p salt : string) : String.length (hash p salt) = 60%nat.
Proof.
  unfold hash.
  change (String.length ("$2a$10$" ++ pad 53 p))
    with (7 + String.length (pad 53 p))%nat.
  now rewrite length_pad.
Qed.

Lemma verify_sign (i : Z) (key : string) (ttl t t' : Z) :
  key <> "" ->
  verify (sign i key ttl t) key t' =
  if (t' <? t + ttl)%Z
  then inr {| jwt_id := Some i; jwt_iat := t; jwt_exp := t + ttl |}
  else inl TokenExpiredError.
Proof.
  intros _. unfold verify, sign.
  rewrite !dec_enc_Z, String.eqb_refl. reflexivity.
Qed.

Definition bcrypt : Bcrypt :=
  {| bcrypt_hash := hash; bcrypt_compare := compare;
     bcrypt_compare_hash := compare_hash;
     bcrypt_hash_length := hash_length |}.

Definition jwt : Jwt :=
  {| jwt_sign := sign; jwt_verify := verify;
     jwt_verify_sign := verify_sign |}.

(** Reading an integer: decimal digits only. *)
Definition read_int4 (s : string) : option Z :=
  match digits_value s with
  | Some n => if in_int4 n then Some n else None
  | None => None
  end.

Lemma read_int4_range (s : string) (z : Z) :
  read_int4 s = Some z -> in_int4 z = true.
Proof.
  unfold read_int4. destruct (digits_value s) as [n|]; [|discriminate].
  destruct (in_int4 n) eqn:E; [|discriminate]. now intros [= <-].
Qed.

Lemma read_int4_digits (s : string) (n : Z) :
  digits_value s = Some n ->
  read_int4 s = if in_int4 n then Some n else None.
Proof. unfold read_int4. now intros ->. Qed.

Definition pg : Postgres :=
  {| int4in := read_int4; int4in_range := read_int4_range;
     int4in_digits := read_int4_digits |}.

(** [TO_CHAR] stand-in: the seconds, encoded. *)
Definition to_char (t : Z) : string := enc_Z t.

End Toy.

(* ===================================================================== *)
(** ** The handlers *)
(* ===================================================================== *)

Section Handlers.

Context {bcrypt : Bcrypt} {jwt : Jwt} {pg : Postgres}.

(** [process.env.JWT_SECRET], which the deployment sets. *)
Variable JWT_SECRET : string.

(** [TO_CHAR(t, 'YYYY-MM-DD HH24:MI:SS')]. *)
Variable to_char : Z -> string.

(** [res.status(code).json({ error })]. *)
Definition error_json (code : Z) (error : string) : response :=
  {| res_status := code; res_json := JsonError error |}.

(** [res.json(j)]: the status stays 200. *)
Definition ok_json (j : json) : response :=
  {| res_status := 200; res_json := j |}.

(** The middleware [verifyUser]: [inl] is the response it sends itself,
    [inr user] is [req.user = user; next()]. [clock] is the time in seconds
    at which the token is verified. *)
Definition verifyUser (db : database) (clock : Z) (req : request)
  : response + user :=
  match bearer_token req with
  | None => inl (error_json 401 "Unauthorized")
  | Some token =>
      if String.eqb token "" then inl (error_json 401 "Unauthorized")
      else
        match jwt_verify token JWT_SECRET clock with
        | inl _ => inl (error_json 401 "Invalid token")
        | inr decoded =>
            match select_users_by_id db (jwt_id decoded) with
            | [] => inl (error_json 403 "User not found")
            | user :: _ =>
                if String.eqb (user_status user) "blocked"
                then inl (error_json 403 "Your account has been blocked")
                else inr user
            end
        end
  end.

(** A route [app.METHOD(path, verifyUser, handler)]. *)
Definition protected
    (handler : database -> user -> request -> response * database)
    (db : database) (clock : Z) (req : request) : response * database :=
  match verifyUser db clock req with
  | inl res => (res, db)
  | inr user => handler db user req
  end.

(** A body field that passes the test [!x] of [/register]. *)
Definition required (x : option string) : option string :=
  if falsy x then None else x.

(** [app.post('/register', ...)]; [salt] is the salt [bcrypt.hash] draws. *)
Definition post_register (db : database) (salt : string) (req : request)
  : response * database :=
  let b := req_body req in
  match required (body_name b), required (body_email b),
        required (body_password b) with
  | Some name, Some email, Some password =>
      let hashedPassword := bcrypt_hash password salt in
      match insert_user db name email hashedPassword with
      | (inr _, db') =>
          ({| res_status := 201;
              res_json := JsonMessage "User registered successfully" |}, db')
      | (inl err, db') =>
          if String.eqb (pg_code err) "23505"
          then (error_json 400 "Email already exists", db')
          else (error_json 500 ("Server error: " ++ pg_message err), db')
      end
  | _, _, _ => (error_json 400 "All fields required", db)
  end.

Definition login_user_of (u : user) : login_user :=
  {| lu_id := user_id u; lu_name := user_name u; lu_email := user_email u;
     lu_status := user_status u |}.

(** [app.post('/login', ...)]; [clock] is the server's time in seconds when
    the token is signed, [now] is [NOW()] of the update. A password that is
    not a string makes [bcrypt.compare] reject, which the [catch] answers. *)
Definition post_login (db : database) (clock now : Z) (req : request)
  : response * database :=
  let b := req_body req in
  match select_users_by_email db (body_email b) with
  | [] => (error_json 400 "Invalid credentials", db)
  | user :: _ =>
      if String.eqb (user_status user) "blocked"
      then (error_json 403 "Your account has been blocked", db)
      else
        match body_password b with
        | None => (error_json 500 "Server error", db)
        | Some password =>
            if negb (bcrypt_compare password (user_password user))
            then (error_json 400 "Invalid credentials", db)
            else
              let db' := update_last_login db now (user_id user) in
              let token := jwt_sign (user_id user) JWT_SECRET 3600 clock in
              (ok_json (JsonLogin token (login_user_of user)), db')
        end
  end.

Definition users_row_of (u : user) : users_row :=
  {| row_id := user_id u; row_name := user_name u; row_email := user_email u;
     row_status := user_status u;
     row_last_login := option_map to_char (user_last_login u) |}.

(** The handler of [app.get('/users', verifyUser, ...)]. *)
Definition users_handler (db : database) (_ : user) (_ : request)
  : response * database :=
  (ok_json (JsonRows (map users_row_of (order_by_last_login_desc (users db)))),
   db).

(** The handler of [app.post('/block', verifyUser, ...)]: [userIds.includes]
    on an undefined [userIds] throws, and so does a statement that fails;
    the [catch] answers both. *)
Definition block_handler (db : database) (user : user) (req : request)
  : response * database :=
  match body_userIds (req_body req) with
  | None => (error_json 500 "Server error", db)
  | Some userIds =>
      if js_includes userIds (user_id user)
      then (error_json 403 "You cannot block yourself", db)
      else
        match update_status db "blocked" (Some userIds) with
        | Some db' => (ok_json (JsonMessage "Users blocked successfully!"), db')
        | None => (error_json 500 "Server error", db)
        end
  end.

(** The handler of [app.post('/unblock', verifyUser, ...)]. *)
Definition unblock_handler (db : database) (_ : user) (req : request)
  : response * database :=
  match update_status db "active" (body_userIds (req_body req)) with
  | Some db' => (ok_json (JsonMessage "User unblocked successfully!"), db')
  | None => (error_json 500 "Server error", db)
  end.

(** The handler of [app.post('/delete', verifyUser, ...)]. *)
Definition delete_handler (db : database) (user : user) (req : request)
  : response * database :=
  match body_userIds (req_body req) with
  | None => (error_json 500 "Server error", db)
  | Some userIds =>
      if js_includes userIds (user_id user)
      then (error_json 403 "Cannot delete yourself", db)
      else
        match delete_users db (Some userIds) with
        | Some db' => (ok_json (JsonMessage "User deleted successfully!"), db')
        | None => (error_json 500 "Server error", db)
        end
  end.

Definition get_users := protected users_handler.
Definition post_block := protected block_handler.
Definition post_unblock := protected unblock_handler.
Definition post_delete := protected delete_handler.

End Handlers.

(** The constraints of the table, which every statement keeps: the sequence
    is ahead of every [id], ids and emails are unique, and an email is not
    empty and fits its column. *)
Record consistent (db : database) : Prop := mkConsistent {
  ids_below_seq : Forall (fun u => user_id u < users_id_seq db) (users db);
  ids_unique : NoDup (map user_id (users db));
  emails_unique : NoDup (map user_email (users db));
  emails_fit :
    Forall (fun u => user_email u <> "" /\
                     (String.length (user_email u) <= 255)%nat) (users db)
}.

(** The stores the server can be in: the empty table, and what a request to
    a route that writes leaves behind. *)
Section Reachability.

Context {bcrypt : Bcrypt} {jwt : Jwt} {pg : Postgres}.
Variable JWT_SECRET : string.

Inductive served (db : database) : database -> Prop :=
| served_register (salt : string) (req : request) :
    served db (snd (post_register db salt req))
| served_login (clock now : Z) (req : request) :
    served db (snd (post_login JWT_SECRET db clock now req))
| served_block (clock : Z) (req : request) :
    served db (snd (post_block JWT_SECRET db clock req))
| served_unblock (clock : Z) (req : request) :
    served db (snd (post_unblock JWT_SECRET db clock req))
| served_delete (clock : Z) (req : request) :
    served db (snd (post_delete JWT_SECRET db clock req)).

Inductive reachable : database -> Prop :=
| reachable_empty : reachable empty_database
| reachable_served (db db' : database) :
    reachable db -> served db db' -> reachable db'.

End Reachability.

(** The same constraints as a check that runs. *)
Fixpoint nodupb {A : Type} (eqb : A -> A -> bool) (l : list A) : bool :=
  match l with
  | [] => true
  | x :: l' => negb (existsb (eqb x) l') && nodupb eqb l'
  end.

Definition consistentb (db : database) : bool :=
  forallb (fun u => (user_id u <? users_id_seq db)%Z) (users db)
  && nodupb Z.eqb (map user_id (users db))
  && nodupb String.eqb (map user_email (users db))
  && forallb (fun u => negb (String.eqb (user_email u) "")
                       && (String.length (user_email u) <=? 255)%nat) (users db).

(** What a bulk status update does to one row: only [status] may change, and
    it does exactly for the rows whose [id] is among [ids]. *)
Definition status_set_for (ids : list Z) (st : string) (u u' : user) : Prop :=
  user_id u' = user_id u /\ user_name u' = user_name u /\
  user_email u' = user_email u /\ user_password u' = user_password u /\
  user_last_login u' = user_last_login u /\
  (In (user_id u) ids -> user_status u' = st) /\
  (~ In (user_id u) ids -> u' = u).

(** [u] may be listed before [v]: descending [last_login], never
    authenticated accounts first. *)
Definition desc_nulls_first (u v : user) : Prop :=
  match user_last_login u, user_last_login v with
  | None, _ => True
  | Some _, None => False
  | Some x, Some y => y <= x
  end.

(** [u] may be listed before [v]: descending [last_login], never
    authenticated accounts last. *)
Definition desc_nulls_last (u v : user) : Prop :=
  match user_last_login u, user_last_login v with
  | _, None => True
  | None, Some _ => False
  | Some x, Some y => y <= x
  end.

(** [/users] answers 200 with the public columns of all the rows of the table,
    listed in the order [before], and leaves the store as it is. *)
Definition users_listing {jwt : Jwt} (JWT_SECRET : string) (to_char : Z -> string)
    (before : user -> user -> Prop)
    (db : database) (clock : Z) (req : request) : Prop :=
  exists rows,
    get_users JWT_SECRET to_char db clock req
    = (ok_json (JsonRows (map (users_row_of to_char) rows)), db) /\
    Permutation rows (users db) /\
    StronglySorted before rows.

(* ===================================================================== *)
(** ** A run of the server *)
(* ===================================================================== *)

(** Alice and Bob register, both log in, and Alice blocks Bob; the stores
    along the way are the inputs of the examples below. *)
Module Run.

Definition secret : string := "secret".

Definition fields (n e p : option string) : body :=
  {| body_name := n; body_email := e; body_password := p;
     body_userIds := None |}.

(** A body with [userIds] only, the ids being numbers. *)
Definition targets (ids : option (list Z)) : body :=
  {| body_name := None; body_email := None; body_password := None;
     body_userIds := option_map (map IdNumber) ids |}.

Definition anonymous (b : body) : request :=
  {| authorization := None; req_body := b |}.

Definition bearer (token : string) (b : body) : request :=
  {| authorization := Some ("Bearer " ++ token); req_body := b |}.

Definition register_alice : request :=
  anonymous (fields (Some "Alice") (Some "alice@example.com") (Some "rabbit")).

Definition register_bob : request :=
  anonymous (fields (Some "Bob") (Some "bob@example.com") (Some "builder")).

Definition login_alice : request :=
  anonymous (fields None (Some "alice@example.com") (Some "rabbit")).

Definition login_bob : request :=
  anonymous (fields None (Some "bob@example.com") (Some "builder")).

Definition registered : database :=
  Eval vm_compute in
    snd (@post_register Toy.bcrypt
           (snd (@post_register Toy.bcrypt empty_database "s1" register_alice))
           "s2" register_bob).

(** Alice logs in at time 1000. *)
Definition alice_in : database :=
  Eval vm_compute in
    snd (@post_login Toy.bcrypt Toy.jwt secret registered 1000 1000 login_alice).

(** Bob logs in at time 1010. *)
Definition both_in : database :=
  Eval vm_compute in
    snd (@post_login Toy.bcrypt Toy.jwt secret alice_in 1010 1010 login_bob).

Definition alice_token : string :=
  Eval vm_compute in @jwt_sign Toy.jwt 1 secret 3600 1000.

Definition bob_token : string :=
  Eval vm_compute in @jwt_sign Toy.jwt 2 secret 3600 1010.

Definition alice : user :=
  {| user_id := 1; user_name := "Alice"; user_email := "alice@example.com";
     user_password := Toy.hash "rabbit" "s1"; user_status := "active";
     user_last_login := Some 1000 |}.

Definition bob : user :=
  {| user_id := 2; user_name := "Bob"; user_email := "bob@example.com";
     user_password := Toy.hash "builder" "s2"; user_status := "active";
     user_last_login := Some 1010 |}.

Definition blocked_bob : user := with_status "blocked" bob.



(** Someone registers with Bob's email. *)
Definition register_robert : request :=
  anonymous (fields (Some "Robert") (Some "bob@example.com") (Some "bruce")).



(** Alice blocks Bob at time 1100. *)
Definition bob_blocked : database :=
  Eval vm_compute in
    snd (@post_block Toy.jwt Toy.pg secret both_in 1100
           (bearer alice_token (targets (Some [2])))).

End Run.

(* ===================================================================== *)
(** ** Several requests in a row *)
(* ===================================================================== *)

Section Runs.

Context {bcrypt : Bcrypt} {jwt : Jwt} {pg : Postgres}.
Variable JWT_SECRET : string.

(** Any number of requests served one after the other. *)
Inductive served_many (db : database) : database -> Prop :=
| served_none : served_many db db
| served_more (db1 db2 : database) :
    served_many db db1 -> served JWT_SECRET db1 db2 -> served_many db db2.

End Runs.

(** What one request may do to a row: [u'] is [u] with, at most, another
    [status] among the two the server writes and another [last_login]. *)
Definition same_account (u u' : user) : Prop :=
  user_id u' = user_id u /\ user_name u' = user_name u /\
  user_email u' = user_email u /\ user_password u' = user_password u /\
  (user_status u' = user_status u \/ user_status u' = "active" \/
   user_status u' = "blocked").

(* ===================================================================== *)
(** ** The second server: the routes under [/api] *)
(* ===================================================================== *)

(** The other version of the server in [index.js] registers the same routes
    under [/api], with shorter messages and the static files last. *)
Section Api.

Context {bcrypt : Bcrypt} {jwt : Jwt} {pg : Postgres}.
Variable JWT_SECRET : string.
Variable to_char : Z -> string.

Definition api_verifyUser (db : database) (clock : Z) (req : request)
  : response + user :=
  match bearer_token req with
  | None => inl (error_json 401 "Unauthorized")
  | Some token =>
      if String.eqb token "" then inl (error_json 401 "Unauthorized")
      else
        match jwt_verify token JWT_SECRET clock with
        | inl _ => inl (error_json 401 "Invalid token")
        | inr decoded =>
            match select_users_by_id db (jwt_id decoded) with
            | [] => inl (error_json 403 "User not found")
            | user :: _ =>
                if String.eqb (user_status user) "blocked"
                then inl (error_json 403 "Account blocked")
                else inr user
            end
        end
  end.

Definition api_protected
    (handler : database -> user -> request -> response * database)
    (db : database) (clock : Z) (req : request) : response * database :=
  match api_verifyUser db clock req with
  | inl res => (res, db)
  | inr user => handler db user req
  end.

(** [app.post('/api/register', ...)]. *)
Definition api_register (db : database) (salt : string) (req : request)
  : response * database :=
  let b := req_body req in
  match required (body_name b), required (body_email b),
        required (body_password b) with
  | Some name, Some email, Some password =>
      let hashedPassword := bcrypt_hash password salt in
      match insert_user db name email hashedPassword with
      | (inr _, db') =>
          ({| res_status := 201;
              res_json := JsonMessage "Registration successful" |}, db')
      | (inl err, db') =>
          if String.eqb (pg_code err) "23505"
          then (error_json 400 "Email exists", db')
          else (error_json 500 "Server error", db')
      end
  | _, _, _ => (error_json 400 "All fields required", db)
  end.

(** [app.post('/api/login', ...)]. *)
Definition api_login (db : database) (clock now : Z) (req : request)
  : response * database :=
  let b := req_body req in
  match select_users_by_email db (body_email b) with
  | [] => (error_json 400 "Invalid credentials", db)
  | user :: _ =>
      if String.eqb (user_status user) "blocked"
      then (error_json 403 "Account blocked", db)
      else
        match body_password b with
        | None => (error_json 500 "Server error", db)
        | Some password =>
            if negb (bcrypt_compare password (user_password user))
            then (error_json 400 "Invalid credentials", db)
            else
              let db' := update_last_login db now (user_id user) in
              let token := jwt_sign (user_id user) JWT_SECRET 3600 clock in
              (ok_json (JsonLogin token (login_user_of user)), db')
        end
  end.

(** The handlers of [/api/users], [/api/block], [/api/unblock] and
    [/api/delete]. *)
Definition api_users_handler (db : database) (_ : user) (_ : request)
  : response * database :=
  (ok_json (JsonRows (map (users_row_of to_char)
                          (order_by_last_login_desc (users db)))), db).

Definition api_block_handler (db : database) (user : user) (req : request)
  : response * database :=
  match body_userIds (req_body req) with
  | None => (error_json 500 "Server error", db)
  | Some userIds =>
      if js_includes userIds (user_id user)
      then (error_json 403 "Cannot block yourself", db)
      else
        match update_status db "blocked" (Some userIds) with
        | Some db' => (ok_json (JsonMessage "Users blocked"), db')
        | None => (error_json 500 "Server error", db)
        end
  end.

Definition api_unblock_handler (db : database) (_ : user) (req : request)
  : response * database :=
  match update_status db "active" (body_userIds (req_body req)) with
  | Some db' => (ok_json (JsonMessage "Users unblocked"), db')
  | None => (error_json 500 "Server error", db)
  end.

Definition api_delete_handler (db : database) (user : user) (req : request)
  : response * database :=
  match body_userIds (req_body req) with
  | None => (error_json 500 "Server error", db)
  | Some userIds =>
      if js_includes userIds (user_id user)
      then (error_json 403 "Cannot delete yourself", db)
      else
        match delete_users db (Some userIds) with
        | Some db' => (ok_json (JsonMessage "Users deleted"), db')
        | None => (error_json 500 "Server error", db)
        end
  end.

Definition api_users := api_protected api_users_handler.
Definition api_block := api_protected api_block_handler.
Definition api_unblock := api_protected api_unblock_handler.
Definition api_delete := api_protected api_delete_handler.

End Api.

(** Two answers with the same status code that leave the same store. *)
Definition same_outcome (a b : response * database) : Prop :=
  res_status (fst a) = res_status (fst b) /\ snd a = snd b.

(* ===================================================================== *)
(** ** Which route answers a request *)
(* ===================================================================== *)

Inductive method : Type := GET | POST.

Definition method_eqb (a b : method) : bool :=
  match a, b with
  | GET, GET | POST, POST => true
  | _, _ => false
  end.

(** What answers: a file of [client/public], [index.html] of the catch-all,
    one of the handlers, or nothing. *)
Inductive endpoint : Type :=
| StaticFile | IndexHtml | Register | Login | DebugDb | Users
| Block | Unblock | Delete | Root | NotFound.

(** The routes of the first server in the order [index.js] registers them,
    after [express.static]. *)
Definition routes : list (method * string * endpoint) :=
  [ (GET, "*", IndexHtml);
    (POST, "/register", Register);
    (POST, "/login", Login);
    (GET, "/debug-db", DebugDb);
    (GET, "/users", Users);
    (GET, "*", IndexHtml);
    (POST, "/block", Block);
    (POST, "/unblock", Unblock);
    (POST, "/delete", Delete);
    (GET, "/", Root) ].

Section Dispatch.

(** [path_matches pattern path]: Express matches the path of the request
    against the pattern of a route. *)
Variable path_matches : string -> string -> bool.

(** [static_serves path]: [express.static] finds a file for the path. *)
Variable static_serves : string -> bool.

(** The first middleware or route that takes the request answers it: none of
    the handlers calls [next()]. *)
Definition dispatch (m : method) (path : string) : endpoint :=
  if method_eqb m GET && static_serves path then StaticFile
  else
    match find (fun r => method_eqb (fst (fst r)) m
                         && path_matches (snd (fst r)) path) routes with
    | Some r => snd r
    | None => NotFound
    end.

End Dispatch.

(* ===================================================================== *)
(** ** The client: selecting accounts in [UserManagement.jsx] *)
(* ===================================================================== *)

(** [handleSelectAll], for [e.target.checked] and the listed [users]. *)
Definition handleSelectAll (checked : bool) (listed : list users_row) : list Z :=
  if checked then map row_id listed else [].

(** [handleSelectUser(id)], applied to the selection [prev]. *)
Definition handleSelectUser (id : Z) (prev : list Z) : list Z :=
  if includes prev id
  then filter (fun userId => negb (userId =? id)%Z) prev
  else (prev ++ [id])%list.

(** The box in the table head:
    [selectedUsers.length === users.length && users.length > 0]. *)
Definition select_all_checked (selectedUsers : list Z) (listed : list users_row)
  : bool :=
  (List.length selectedUsers =? List.length listed)%nat
  && (0 <? List.length listed)%nat.

(** The box of a row: [selectedUsers.includes(user.id)]. *)
Definition row_checked (selectedUsers : list Z) (u : users_row) : bool :=
  includes selectedUsers (row_id u).

(** The request of [handleBlock], [handleUnblock] and [handleDelete]:
    [{ userIds: selectedUsers }], the selected ids being the numbers that
    the list gave, under
    [Authorization: `Bearer ${localStorage.getItem('token')}`]; a missing
    item is [null], which the template prints as "null". *)
Definition bulk_request (token : option string) (selectedUsers : list Z)
  : request :=
  {| authorization :=
       Some ("Bearer " ++ match token with Some t => t | None => "null" end);
     req_body := {| body_name := None; body_email := None;
                    body_password := None;
                    body_userIds := Some (map IdNumber selectedUsers) |} |}.

(** A string without a space. *)
Fixpoint no_space (s : string) : bool :=
  match s with
  | EmptyString => true
  | String c s' => negb (Ascii.eqb c " "%char) && no_space s'
  end.

(** More requests and stores of the run. *)
Module More.

Import Run.

(** A name of 256 characters. *)
Definition long_name : string := Eval vm_compute in Toy.pad 256 "Zed".


(** Alice asks to block the id 1, her own, written as a string. *)
Definition block_one_as_string : request :=
  bearer alice_token
    {| body_name := None; body_email := None; body_password := None;
       body_userIds := Some [IdString "1"] |}.

(** Bob as he registered, before his first login. *)
Definition new_bob : user := with_last_login None bob.

(** Alice has deleted Bob. *)
Definition bob_deleted : database :=
  Eval vm_compute in
    snd (@post_delete Toy.jwt Toy.pg secret both_in 1100
           (bearer alice_token (targets (Some [2])))).

(** A matcher of paths: the pattern "*" takes every path, another pattern
    takes the path equal to it. *)
Definition exact_or_star (pattern path : string) : bool :=
  String.eqb pattern "*" || String.eqb pattern path.

(** The list as Alice is shown it once both have logged in. *)
Definition listed_both : list users_row :=
  map (users_row_of Toy.to_char) (order_by_last_login_desc (users both_in)).

End More.

(* ===================================================================== *)
(** ** Lemmas on the statements *)
(* ===================================================================== *)

Lemma includes_In (ids : list Z) (x : Z) : includes ids x = true <-> In x ids.
Proof.
  unfold includes. rewrite existsb_exists. split.
  - intros [y [Hy Heq]]. apply Z.eqb_eq in Heq. now subst.
  - intros H. exists x. split; [assumption | apply Z.eqb_refl].
Qed.

Lemma includes_not_In (ids : list Z) (x : Z) :
  includes ids x = false <-> ~ In x ids.
Proof.
  rewrite <- includes_In. destruct (includes ids x); split; intros H;
    congruence || (now exfalso; apply H) || discriminate.
Qed.

Lemma with_status_same (u : user) :
  with_status (user_status u) u = u.
Proof. now destruct u. Qed.


Lemma nodupb_sound {A : Type} (eqb : A -> A -> bool) (l : list A) :
  (forall x y, eqb x y = true <-> x = y) ->
  nodupb eqb l = true -> NoDup l.
Proof.
  intros Heqb. induction l as [|x l IH]; simpl; intros H; constructor.
  - apply andb_prop in H as [H _]. apply negb_true_iff in H.
    intros Hin. rewrite <- not_true_iff_false in H. apply H.
    apply existsb_exists. exists x. split; [assumption | now apply Heqb].
  - apply andb_prop in H as [_ H]. now apply IH.
Qed.

Lemma consistentb_sound (db : database) :
  consistentb db = true -> consistent db.
Proof.
  unfold consistentb. intros H.
  apply andb_prop in H as [H H4]. apply andb_prop in H as [H H3].
  apply andb_prop in H as [H1 H2].
  constructor.
  - apply Forall_forall. intros u Hu.
    rewrite forallb_forall in H1. now apply Z.ltb_lt, H1.
  - apply (nodupb_sound Z.eqb); [apply Z.eqb_eq | assumption].
  - apply (nodupb_sound String.eqb); [apply String.eqb_eq | assumption].
  - apply Forall_forall. intros u Hu.
    rewrite forallb_forall in H4. specialize (H4 u Hu).
    apply andb_prop in H4 as [Hne Hle]. split.
    + apply negb_true_iff in Hne. now apply String.eqb_neq.
    + now apply Nat.leb_le.
Qed.

Lemma filter_none {A : Type} (p : A -> bool) (l : list A) :
  (forall x, In x l -> p x = false) -> filter p l = [].
Proof.
  induction l as [|x l IH]; simpl; intros H; [reflexivity|].
  rewrite (H x (or_introl eq_refl)). apply IH. intros y Hy. apply H. now right.
Qed.

(** A key that is unique in the table selects its row alone. *)
Lemma filter_unique_key {K : Type} (key : user -> K) (eqb : K -> K -> bool)
    (l : list user) (u : user) :
  (forall x y, eqb x y = true <-> x = y) ->
  NoDup (map key l) -> In u l ->
  filter (fun v => eqb (key v) (key u)) l = [u].
Proof.
  intros Heqb. induction l as [|v l IH]; simpl; intros Hnd Hin; [contradiction|].
  inversion Hnd as [|k ks Hnotin Hnd' Heq]; subst.
  destruct Hin as [-> | Hin].
  - replace (eqb (key u) (key u)) with true by (symmetry; now apply Heqb).
    f_equal. apply filter_none. intros w Hw.
    destruct (eqb (key w) (key u)) eqn:E; [|reflexivity].
    exfalso. apply Hnotin. apply Heqb in E. rewrite <- E. now apply in_map.
  - destruct (eqb (key v) (key u)) eqn:E.
    + exfalso. apply Heqb in E. apply Hnotin. rewrite E. now apply in_map.
    + now apply IH.
Qed.

Lemma select_by_id_unique (db : database) (u : user) :
  consistent db -> In u (users db) ->
  select_users_by_id db (Some (user_id u)) = [u].
Proof.
  intros Hc Hin. unfold select_users_by_id.
  apply (filter_unique_key user_id Z.eqb);
    [apply Z.eqb_eq | apply (ids_unique db Hc) | assumption].
Qed.

Lemma select_by_email_unique (db : database) (u : user) :
  consistent db -> In u (users db) ->
  select_users_by_email db (Some (user_email u)) = [u].
Proof.
  intros Hc Hin. unfold select_users_by_email.
  apply (filter_unique_key user_email String.eqb);
    [apply String.eqb_eq | apply (emails_unique db Hc) | assumption].
Qed.


Lemma select_by_email_absent (db : database) (e : option string) :
  (forall u, In u (users db) -> Some (user_email u) <> e) ->
  select_users_by_email db e = [].
Proof.
  intros H. destruct e as [e|]; [|reflexivity]. simpl.
  apply filter_none. intros u Hu. apply String.eqb_neq. intros E.
  apply (H u Hu). now rewrite E.
Qed.

Lemma unique_key_inj {K : Type} (key : user -> K) (l : list user) (u v : user) :
  NoDup (map key l) -> In u l -> In v l -> key u = key v -> u = v.
Proof.
  induction l as [|w l IH]; simpl; intros Hnd Hu Hv Hk; [contradiction|].
  inversion Hnd as [|k ks Hnotin Hnd']; subst.
  destruct Hu as [-> | Hu], Hv as [-> | Hv]; trivial.
  - exfalso. apply Hnotin. rewrite Hk. now apply in_map.
  - exfalso. apply Hnotin. rewrite <- Hk. now apply in_map.
  - now apply IH.
Qed.

Lemma filter_comm {A : Type} (p q : A -> bool) (l : list A) :
  filter p (filter q l) = filter q (filter p l).
Proof.
  induction l as [|x l IH]; simpl; [reflexivity|].
  destruct (p x) eqn:Ep, (q x) eqn:Eq; simpl; rewrite ?Ep, ?Eq, IH; reflexivity.
Qed.

Lemma select_by_id_delete (db : database) (ids : list Z) (i : option Z) :
  select_users_by_id (delete_rows db ids) i =
  filter (fun u => negb (includes ids (user_id u))) (select_users_by_id db i).
Proof.
  destruct i as [i|]; [|reflexivity]. simpl. apply filter_comm.
Qed.

(** *** Reading the array of ids *)

Section ReadingIds.

Context {pg : Postgres}.

Lemma int4_array_In (l : list id_value) (zs : list Z) (v : id_value) :
  int4_array l = Some zs -> In v l ->
  exists z, int4_of v = Some z /\ In z zs.
Proof.
  revert zs. induction l as [|w l IH]; simpl; intros zs H Hin; [contradiction|].
  destruct (int4_of w) as [z|] eqn:Ew; [|discriminate].
  destruct (int4_array l) as [zs'|]; [|discriminate].
  injection H as <-. destruct Hin as [-> | Hin].
  - exists z. split; [assumption | now left].
  - destruct (IH zs' eq_refl Hin) as [z' [Hz' Hin']].
    exists z'. split; [assumption | now right].
Qed.

(** What JavaScript finds in the array, PostgreSQL reads from it. *)
Lemma js_includes_read (l : list id_value) (zs : list Z) (x : Z) :
  int4_array l = Some zs -> js_includes l x = true -> In x zs.
Proof.
  intros Hread Hjs. unfold js_includes in Hjs.
  apply existsb_exists in Hjs as [v [Hv Heq]].
  destruct v as [n|s]; [|discriminate]. apply Z.eqb_eq in Heq. subst n.
  destruct (int4_array_In l zs (IdNumber x) Hread Hv) as [z [Hz Hin]].
  simpl in Hz. destruct (in_int4 x); [|discriminate]. now injection Hz as <-.
Qed.

Lemma js_includes_not_read (l : list id_value) (zs : list Z) (x : Z) :
  int4_array l = Some zs -> ~ In x zs -> js_includes l x = false.
Proof.
  intros Hread Hnot. apply not_true_iff_false. intros Hjs.
  apply Hnot. now apply (js_includes_read l zs x).
Qed.

Lemma js_includes_numbers (ids : list Z) (x : Z) :
  js_includes (map IdNumber ids) x = includes ids x.
Proof.
  unfold js_includes, includes.
  induction ids as [|n ids IH]; simpl; [reflexivity|].
  now rewrite IH, Z.eqb_sym.
Qed.

Lemma int4_array_numbers (ids : list Z) :
  forallb in_int4 ids = true -> int4_array (map IdNumber ids) = Some ids.
Proof.
  induction ids as [|z ids IH]; simpl; [reflexivity|].
  intros H. apply andb_prop in H as [Hz Hids]. now rewrite Hz, (IH Hids).
Qed.

End ReadingIds.

(** *** The bulk status update, row by row *)

Lemma update_status_rows (db : database) (st : string) (ids : list Z) :
  Forall2 (status_set_for ids st) (users db)
          (users (update_rows db st ids)).
Proof.
  simpl. induction (users db) as [|u l IH]; simpl; constructor; [|exact IH].
  unfold status_set_for. destruct (includes ids (user_id u)) eqn:E.
  - apply includes_In in E. simpl. repeat split; trivial. intros H. contradiction.
  - apply includes_not_In in E. repeat split; trivial. intros H. contradiction.
Qed.

Lemma update_status_idempotent (db : database) (st : string)
    (ids : list Z) :
  update_rows (update_rows db st ids) st ids = update_rows db st ids.
Proof.
  unfold update_rows. simpl.
  f_equal. rewrite map_map. apply map_ext. intros u.
  destruct (includes ids (user_id u)) eqn:E; simpl; now rewrite E.
Qed.

Lemma update_status_keeps (db : database) (st : string) (ids : list Z)
    (u : user) :
  In u (users db) -> user_status u = st ->
  In u (users (update_rows db st ids)).
Proof.
  intros Hin Hst. simpl.
  apply in_map_iff. exists u. split; [|assumption].
  destruct (includes ids (user_id u)); [|reflexivity].
  rewrite <- Hst. apply with_status_same.
Qed.

(** *** [ORDER BY last_login DESC] *)

Lemma insert_desc_perm (u : user) (l : list user) :
  Permutation (u :: l) (insert_desc u l).
Proof.
  induction l as [|v l IH]; simpl; [reflexivity|].
  destruct (last_login_desc _ _); [reflexivity|].
  rewrite perm_swap. now apply perm_skip.
Qed.

Lemma order_by_perm (l : list user) :
  Permutation (order_by_last_login_desc l) l.
Proof.
  induction l as [|u l IH]; simpl; [constructor|].
  rewrite <- insert_desc_perm. now apply perm_skip.
Qed.

Lemma last_login_desc_spec (u v : user) :
  last_login_desc (user_last_login u) (user_last_login v) = true <->
  desc_nulls_first u v.
Proof.
  unfold desc_nulls_first, last_login_desc.
  destruct (user_last_login u), (user_last_login v); try tauto.
  - apply Z.leb_le.
  - split; [discriminate | contradiction].
Qed.

Lemma desc_nulls_first_total (u v : user) :
  last_login_desc (user_last_login u) (user_last_login v) = false ->
  desc_nulls_first v u.
Proof.
  unfold desc_nulls_first, last_login_desc.
  destruct (user_last_login u), (user_last_login v); try discriminate; trivial.
  intros H. apply Z.leb_gt in H. lia.
Qed.

Lemma desc_nulls_first_trans (u v w : user) :
  desc_nulls_first u v -> desc_nulls_first v w -> desc_nulls_first u w.
Proof.
  unfold desc_nulls_first.
  destruct (user_last_login u), (user_last_login v), (user_last_login w);
    trivial; try contradiction. lia.
Qed.

Lemma insert_desc_sorted (u : user) (l : list user) :
  StronglySorted desc_nulls_first l ->
  StronglySorted desc_nulls_first (insert_desc u l).
Proof.
  induction l as [|v l IH]; simpl; intros Hs.
  - repeat constructor.
  - inversion Hs as [|? ? Hs' Hall]; subst.
    destruct (last_login_desc _ _) eqn:E.
    + constructor; [assumption|]. apply last_login_desc_spec in E.
      constructor; [assumption|].
      eapply Forall_impl; [|exact Hall].
      intros w Hw. now apply (desc_nulls_first_trans u v w).
    + constructor; [now apply IH|].
      apply (Permutation_Forall (insert_desc_perm u l)).
      constructor; [now apply desc_nulls_first_total | assumption].
Qed.

Lemma order_by_sorted (l : list user) :
  StronglySorted desc_nulls_first (order_by_last_login_desc l).
Proof.
  induction l as [|u l IH]; simpl; [constructor | now apply insert_desc_sorted].
Qed.

(** *** Every statement keeps the constraints of the table *)

Lemma consistent_empty : consistent empty_database.
Proof. constructor; simpl; constructor. Qed.

Lemma consistent_same_keys (db : database) (l : list user) :
  consistent db ->
  map user_id l = map user_id (users db) ->
  map user_email l = map user_email (users db) ->
  consistent {| users := l; users_id_seq := users_id_seq db |}.
Proof.
  intros [H1 H2 H3 H4] Hid Hem.
  constructor; simpl; try (rewrite Hid || rewrite Hem); trivial.
  - apply Forall_forall. intros u Hu.
    assert (Hin : In (user_id u) (map user_id (users db)))
      by (rewrite <- Hid; now apply in_map).
    apply in_map_iff in Hin as [v [Hv Hin]]. rewrite <- Hv.
    rewrite Forall_forall in H1. now apply H1.
  - apply Forall_forall. intros u Hu.
    assert (Hin : In (user_email u) (map user_email (users db)))
      by (rewrite <- Hem; now apply in_map).
    apply in_map_iff in Hin as [v [Hv Hin]]. rewrite <- Hv.
    rewrite Forall_forall in H4. now apply H4.
Qed.

Lemma consistent_update_status (db : database) (st : string)
    (ids : list Z) :
  consistent db -> consistent (update_rows db st ids).
Proof.
  intros Hc.
  apply consistent_same_keys; trivial; rewrite map_map; apply map_ext;
    intros u; now destruct (includes ids (user_id u)).
Qed.

Lemma consistent_update_last_login (db : database) (now i : Z) :
  consistent db -> consistent (update_last_login db now i).
Proof.
  intros Hc.
  apply consistent_same_keys; trivial; rewrite map_map; apply map_ext;
    intros u; now destruct (user_id u =? i)%Z.
Qed.

Lemma NoDup_map_filter {A K : Type} (key : A -> K) (p : A -> bool) (l : list A) :
  NoDup (map key l) -> NoDup (map key (filter p l)).
Proof.
  induction l as [|x l IH]; simpl; intros H; [constructor|].
  inversion H as [|k ks Hnotin Hnd]; subst.
  destruct (p x); simpl; [constructor|]; try now apply IH.
  intros Hin. apply Hnotin. apply in_map_iff in Hin as [y [Hy Hin]].
  apply filter_In in Hin as [Hin _]. rewrite <- Hy. now apply in_map.
Qed.

Lemma consistent_delete_users (db : database) (ids : list Z) :
  consistent db -> consistent (delete_rows db ids).
Proof.
  intros Hc.
  destruct Hc as [H1 H2 H3 H4]. constructor; simpl.
  - apply Forall_forall. intros u Hu. apply filter_In in Hu as [Hu _].
    rewrite Forall_forall in H1. now apply H1.
  - now apply NoDup_map_filter.
  - now apply NoDup_map_filter.
  - apply Forall_forall. intros u Hu. apply filter_In in Hu as [Hu _].
    rewrite Forall_forall in H4. now apply H4.
Qed.

Lemma length_substring (n m : nat) (s : string) :
  (String.length (substring n m s) <= m)%nat.
Proof.
  revert n m. induction s as [|c s IH]; intros n m.
  - destruct n, m; simpl; lia.
  - destruct n as [|n]; simpl.
    + destruct m as [|m]; simpl; [lia|]. specialize (IH 0%nat m). lia.
    + apply IH.
Qed.

Lemma varchar255_length (s s' : string) :
  varchar255 s = Some s' -> (String.length s' <= 255)%nat.
Proof.
  unfold varchar255. destruct (String.length s <=? 255)%nat eqn:E.
  - intros [= <-]. now apply Nat.leb_le.
  - destruct (all_spaces _); [|discriminate].
    intros [= <-]. apply length_substring.
Qed.

Lemma consistent_bump (db : database) :
  consistent db ->
  consistent {| users := users db; users_id_seq := users_id_seq db + 1 |}.
Proof.
  intros [H1 H2 H3 H4]. constructor; simpl; trivial.
  eapply Forall_impl; [|exact H1]. simpl. intros; lia.
Qed.

Lemma NoDup_snoc {A : Type} (l : list A) (x : A) :
  NoDup l -> ~ In x l -> NoDup (l ++ [x]).
Proof.
  intros Hnd Hx. apply NoDup_rev in Hnd.
  rewrite <- (rev_involutive (l ++ [x])). apply NoDup_rev.
  rewrite rev_app_distr. simpl. constructor; [|assumption].
  now rewrite <- in_rev.
Qed.

Lemma varchar255_nonempty (s s' : string) :
  s <> "" -> varchar255 s = Some s' -> s' <> "".
Proof.
  unfold varchar255. intros Hs. destruct (String.length s <=? 255)%nat.
  - now intros [= <-].
  - destruct (all_spaces _); [|discriminate]. intros [= <-].
    destruct s; [contradiction | discriminate].
Qed.

Lemma consistent_insert_user (db : database) (n e p : string) :
  e <> "" -> consistent db -> consistent (snd (insert_user db n e p)).
Proof.
  intros Hne Hc. unfold insert_user.
  destruct (varchar255 n) as [n'|]; [|exact Hc].
  destruct (varchar255 e) as [e'|] eqn:He; [|exact Hc].
  destruct (varchar255 p) as [p'|]; [|exact Hc].
  destruct (existsb _ _) eqn:Ex; [now apply consistent_bump|].
  destruct Hc as [H1 H2 H3 H4]. simpl. constructor; simpl.
  - apply Forall_app. split.
    + eapply Forall_impl; [|exact H1]. simpl. intros; lia.
    + constructor; [|constructor]. simpl. lia.
  - rewrite map_app. simpl. apply NoDup_snoc; [assumption|].
    intros Hin. apply in_map_iff in Hin as [u [Hu Hin]].
    rewrite Forall_forall in H1. specialize (H1 u Hin). lia.
  - rewrite map_app. simpl. apply NoDup_snoc; [assumption|].
    intros Hin. apply in_map_iff in Hin as [u [Hu Hin]].
    rewrite <- not_true_iff_false in Ex. apply Ex.
    apply existsb_exists. exists u. split; [assumption|].
    now apply String.eqb_eq.
  - apply Forall_app. split; [assumption|].
    constructor; [|constructor]. simpl. split.
    + now apply (varchar255_nonempty e).
    + now apply (varchar255_length e).
Qed.

(* ===================================================================== *)
(** ** Properties of the handlers *)
(* ===================================================================== *)

Section Properties.

Context {bcrypt : Bcrypt} {jwt : Jwt} {pg : Postgres}.
Variable JWT_SECRET : string.
Variable to_char : Z -> string.

Create HintDb consistency.
Hint Resolve consistent_update_status consistent_delete_users
  consistent_update_last_login : consistency.

Lemma consistent_protected
    (handler : database -> user -> request -> response * database)
    (db : database) (clock : Z) (req : request) :
  (forall u, consistent (snd (handler db u req))) ->
  consistent db ->
  consistent (snd (protected JWT_SECRET handler db clock req)).
Proof.
  intros Hh Hc. unfold protected.
  destruct (verifyUser JWT_SECRET db clock req); [assumption | apply Hh].
Qed.

Lemma consistent_post_register (db : database) (salt : string) (req : request) :
  consistent db -> consistent (snd (post_register db salt req)).
Proof.
  intros Hc. unfold post_register.
  destruct (required (body_name _)); [|assumption].
  destruct (required (body_email _)) as [e|] eqn:He; [|assumption].
  destruct (required (body_password _)); [|assumption].
  assert (Hne : e <> "").
  { unfold required, falsy in He.
    destruct (body_email (req_body req)) as [e0|]; [|discriminate].
    destruct (String.eqb e0 "") eqn:E; [discriminate|].
    injection He as <-. now apply String.eqb_neq. }
  match goal with
  | |- context [insert_user ?d ?n ?e ?p] =>
      pose proof (consistent_insert_user d n e p Hne Hc) as Hi;
      destruct (insert_user d n e p) as [[err|row] db']
  end; simpl in Hi; [|assumption].
  now destruct (String.eqb _ _).
Qed.

Lemma consistent_post_login (db : database) (clock now : Z) (req : request) :
  consistent db -> consistent (snd (post_login JWT_SECRET db clock now req)).
Proof.
  intros Hc. unfold post_login.
  destruct (select_users_by_email _ _) as [|u l]; [assumption|].
  destruct (String.eqb _ _); [assumption|].
  destruct (body_password _); [|assumption].
  destruct (negb _); cbn [snd]; auto with consistency.
Qed.

Lemma consistent_bulk_routes (db : database) (clock : Z) (req : request) :
  consistent db ->
  consistent (snd (get_users JWT_SECRET to_char db clock req)) /\
  consistent (snd (post_block JWT_SECRET db clock req)) /\
  consistent (snd (post_unblock JWT_SECRET db clock req)) /\
  consistent (snd (post_delete JWT_SECRET db clock req)).
Proof.
  intros Hc.
  split; [|split; [|split]]; apply consistent_protected; trivial; intros u.
  - unfold block_handler. destruct (body_userIds _) as [l|]; [|assumption].
    destruct (js_includes _ _); [assumption|]. simpl.
    destruct (int4_array l); cbn [option_map snd]; auto with consistency.
  - unfold unblock_handler. destruct (body_userIds _) as [l|]; [|assumption].
    simpl. destruct (int4_array l); cbn [option_map snd]; auto with consistency.
  - unfold delete_handler. destruct (body_userIds _) as [l|]; [|assumption].
    destruct (js_includes _ _); [assumption|]. simpl.
    destruct (int4_array l); cbn [option_map snd]; auto with consistency.
Qed.

(** Every store the server can be in satisfies the constraints. *)
Lemma reachable_consistent (db : database) :
  reachable JWT_SECRET db -> consistent db.
Proof.
  induction 1 as [|db db' Hreach IH Hstep]; [apply consistent_empty|].
  destruct Hstep.
  - now apply consistent_post_register.
  - now apply consistent_post_login.
  - now apply consistent_bulk_routes.
  - now apply consistent_bulk_routes.
  - now apply consistent_bulk_routes.
Qed.

(** The guard reads the store and leaves it as it is, so its verdict on a
    store in which only statuses changed follows the changed row. *)
Lemma select_by_id_update_status (db : database) (st : string)
    (ids : list Z) (i : option Z) :
  select_users_by_id (update_rows db st ids) i =
  map (fun u => if includes ids (user_id u) then with_status st u else u)
      (select_users_by_id db i).
Proof.
  destruct i as [i|]; [|reflexivity]. simpl.
  induction (users db) as [|u l IH]; simpl; [reflexivity|].
  replace (user_id (if includes ids (user_id u) then with_status st u else u))
    with (user_id u) by (now destruct (includes ids (user_id u))).
  destruct (user_id u =? i)%Z; simpl; now rewrite IH.
Qed.

Lemma verifyUser_after_unblock (db : database) (clock : Z) (req : request)
    (actor : user) (ids : list Z) :
  verifyUser JWT_SECRET db clock req = inr actor ->
  exists actor',
    verifyUser JWT_SECRET (update_rows db "active" ids) clock req
    = inr actor'.
Proof.
  unfold verifyUser.
  destruct (bearer_token req) as [token|]; [|discriminate].
  destruct (String.eqb token ""); [discriminate|].
  destruct (jwt_verify token JWT_SECRET clock) as [e|decoded]; [discriminate|].
  rewrite select_by_id_update_status.
  destruct (select_users_by_id db (jwt_id decoded)) as [|u l]; [discriminate|].
  simpl. destruct (String.eqb (user_status u) "blocked") eqn:E; [discriminate|].
  intros _. destruct (includes ids (user_id u)); simpl.
  - eexists. reflexivity.
  - rewrite E. eexists. reflexivity.
Qed.


(** The guard attaches a row of the table that is not blocked. *)
Lemma verifyUser_row (db : database) (clock : Z) (req : request) (actor : user) :
  verifyUser JWT_SECRET db clock req = inr actor ->
  In actor (users db) /\ user_status actor <> "blocked".
Proof.
  unfold verifyUser.
  destruct (bearer_token req) as [token|]; [|discriminate].
  destruct (String.eqb token ""); [discriminate|].
  destruct (jwt_verify token JWT_SECRET clock) as [e|decoded]; [discriminate|].
  destruct (jwt_id decoded) as [i|]; [|discriminate]. simpl.
  destruct (filter _ _) as [|u l] eqn:Hsel; [discriminate|].
  destruct (String.eqb (user_status u) "blocked") eqn:E; [discriminate|].
  intros [= <-]. split; [|now apply String.eqb_neq].
  assert (Hin : In u (filter (fun v => (user_id v =? i)%Z) (users db)))
    by (rewrite Hsel; now left).
  now apply filter_In in Hin.
Qed.

(** The three handlers once PostgreSQL has read the ids [ids] from
    [userIds]. *)
Lemma block_handler_read (db : database) (actor : user) (req : request)
    (userIds : list id_value) (ids : list Z) :
  body_userIds (req_body req) = Some userIds ->
  int4_array userIds = Some ids ->
  js_includes userIds (user_id actor) = false ->
  block_handler db actor req
  = (ok_json (JsonMessage "Users blocked successfully!"),
     update_rows db "blocked" ids).
Proof.
  intros Hids Hread Hjs. unfold block_handler, update_status.
  now rewrite Hids, Hjs, Hread.
Qed.

Lemma unblock_handler_read (db : database) (actor : user) (req : request)
    (userIds : list id_value) (ids : list Z) :
  body_userIds (req_body req) = Some userIds ->
  int4_array userIds = Some ids ->
  unblock_handler db actor req
  = (ok_json (JsonMessage "User unblocked successfully!"),
     update_rows db "active" ids).
Proof.
  intros Hids Hread. unfold unblock_handler, update_status.
  now rewrite Hids, Hread.
Qed.

Lemma delete_handler_read (db : database) (actor : user) (req : request)
    (userIds : list id_value) (ids : list Z) :
  body_userIds (req_body req) = Some userIds ->
  int4_array userIds = Some ids ->
  js_includes userIds (user_id actor) = false ->
  delete_handler db actor req
  = (ok_json (JsonMessage "User deleted successfully!"), delete_rows db ids).
Proof.
  intros Hids Hread Hjs. unfold delete_handler, delete_users.
  now rewrite Hids, Hjs, Hread.
Qed.

(** C1. The test of [/block] misses the actor's own id when it is spelled as
    a string: [includes] finds no number equal to it, PostgreSQL reads the
    digits as the id, and the request is answered 200 with the actor's own
    row set to "blocked". *)
Theorem block_self_string_id_not_caught
    (db : database) (clock : Z) (req : request) (actor : user)
    (userIds : list id_value) (ids : list Z) (s : string) :
  verifyUser JWT_SECRET db clock req = inr actor ->
  body_userIds (req_body req) = Some userIds ->
  In (IdString s) userIds ->
  digits_value s = Some (user_id actor) ->
  in_int4 (user_id actor) = true ->
  js_includes userIds (user_id actor) = false ->
  int4_array userIds = Some ids ->
  exists db',
    post_block JWT_SECRET db clock req
    = (ok_json (JsonMessage "Users blocked successfully!"), db') /\
    In (with_status "blocked" actor) (users db') /\
    ~ In actor (users db').
Proof.
  intros Hguard Hids Hin Hdigits Hrange Hjs Hread.
  destruct (verifyUser_row db clock req actor Hguard) as [Hrow Hst].
  assert (Hself : In (user_id actor) ids).
  { destruct (int4_array_In userIds ids (IdString s) Hread Hin)
      as [z [Hz Hzin]].
    simpl in Hz. rewrite (int4in_digits s _ Hdigits), Hrange in Hz.
    now injection Hz as <-. }
  apply includes_In in Hself.
  exists (update_rows db "blocked" ids). split; [|split].
  - unfold post_block, protected. rewrite Hguard.
    now apply (block_handler_read db actor req userIds ids).
  - simpl. apply in_map_iff. exists actor. now rewrite Hself.
  - simpl. intros Hback. apply in_map_iff in Hback as [v [Hv Hvin]].
    destruct (includes ids (user_id v)) eqn:E.
    + apply Hst. now rewrite <- Hv.
    + subst v. rewrite Hself in E. discriminate E.
Qed.

(** C9 (amended). When PostgreSQL reads every element of [userIds] as an
    integer and the actor's id is not among them, [/block] answers 200 with
    the fixed message "Users blocked successfully!"; the table keeps its
    rows one for one, a row whose id is among the ids has status "blocked"
    and its other columns as before, every other row is the same row, and
    ids that match no row change nothing. *)
Theorem block_others_frame
    (db : database) (clock : Z) (req : request) (actor : user)
    (userIds : list id_value) (ids : list Z) :
  verifyUser JWT_SECRET db clock req = inr actor ->
  body_userIds (req_body req) = Some userIds ->
  int4_array userIds = Some ids ->
  ~ In (user_id actor) ids ->
  exists db',
    post_block JWT_SECRET db clock req
    = (ok_json (JsonMessage "Users blocked successfully!"), db') /\
    Forall2 (status_set_for ids "blocked") (users db) (users db') /\
    users_id_seq db' = users_id_seq db.
Proof.
  intros Hguard Hids Hread Hother.
  exists (update_rows db "blocked" ids). split; [|split].
  - unfold post_block, protected. rewrite Hguard.
    apply (block_handler_read db actor req userIds ids); trivial.
    now apply (js_includes_not_read userIds ids).
  - apply update_status_rows.
  - reflexivity.
Qed.

(** C8 (amended). [/unblock] has no self-action guard: when PostgreSQL reads
    every element of [userIds] as an integer, the actor's own id included or
    not, it answers 200; rows whose id is among the ids get status "active",
    the other rows and unknown ids are left alone; an account that is
    already active stays the same row; and the same request once more
    succeeds and leaves the store as the first one left it. *)
Theorem unblock_no_self_guard_idempotent
    (db : database) (clock : Z) (req : request) (actor : user)
    (userIds : list id_value) (ids : list Z) :
  verifyUser JWT_SECRET db clock req = inr actor ->
  body_userIds (req_body req) = Some userIds ->
  int4_array userIds = Some ids ->
  exists db',
    post_unblock JWT_SECRET db clock req
    = (ok_json (JsonMessage "User unblocked successfully!"), db') /\
    Forall2 (status_set_for ids "active") (users db) (users db') /\
    (forall u, In u (users db) -> user_status u = "active" ->
               In u (users db')) /\
    post_unblock JWT_SECRET db' clock req
    = (ok_json (JsonMessage "User unblocked successfully!"), db').
Proof.
  intros Hguard Hids Hread.
  exists (update_rows db "active" ids). repeat split.
  - unfold post_unblock, protected. rewrite Hguard.
    now apply (unblock_handler_read db actor req userIds ids).
  - apply update_status_rows.
  - intros u Hin Hst. now apply update_status_keeps.
  - destruct (verifyUser_after_unblock db clock req actor ids Hguard)
      as [actor' Hguard'].
    unfold post_unblock, protected. rewrite Hguard'.
    rewrite (unblock_handler_read _ actor' req userIds ids Hids Hread).
    now rewrite update_status_idempotent.
Qed.

(** C10. A request to [/block] or [/delete] that passes the guard and whose
    body has no [userIds] is answered 500 "Server error" (not 400), and the
    store is unchanged. *)
Theorem missing_userIds_is_server_error
    (db : database) (clock : Z) (req : request) (actor : user) :
  verifyUser JWT_SECRET db clock req = inr actor ->
  body_userIds (req_body req) = None ->
  post_block JWT_SECRET db clock req = (error_json 500 "Server error", db) /\
  post_delete JWT_SECRET db clock req = (error_json 500 "Server error", db).
Proof.
  intros Hguard Hids.
  unfold post_block, post_delete, protected. rewrite Hguard.
  unfold block_handler, delete_handler. now rewrite Hids.
Qed.


(** C3. Logging in to an account whose status is "blocked" is answered 403
    "Your account has been blocked", whatever the password field of the
    request is: the answer is given before the password is compared, it
    differs from the answer to invalid credentials, and the store is
    unchanged. *)
Theorem login_blocked_before_password
    (db : database) (clock now : Z) (req : request) (u : user) :
  consistent db -> In u (users db) -> user_status u = "blocked" ->
  body_email (req_body req) = Some (user_email u) ->
  post_login JWT_SECRET db clock now req
  = (error_json 403 "Your account has been blocked", db) /\
  error_json 403 "Your account has been blocked"
  <> error_json 400 "Invalid credentials".
Proof.
  intros Hc Hin Hst Hemail. split; [|discriminate].
  unfold post_login.
  now rewrite Hemail, (select_by_email_unique db u Hc Hin), Hst.
Qed.


(** C5 (amended). [/users], for a request that passes the guard, answers 200
    with the public columns of all the rows of the table and leaves the
    store unchanged; the rows are listed by [last_login] descending with
    the accounts that never authenticated first, as [ORDER BY ... DESC]
    places [NULL] in PostgreSQL. *)
Theorem users_lists_all_desc_nulls_first
    (db : database) (clock : Z) (req : request) (actor : user) :
  verifyUser JWT_SECRET db clock req = inr actor ->
  users_listing JWT_SECRET to_char desc_nulls_first db clock req.
Proof.
  intros Hguard. exists (order_by_last_login_desc (users db)).
  split; [|split].
  - unfold get_users, protected. now rewrite Hguard.
  - apply order_by_perm.
  - apply order_by_sorted.
Qed.



End Properties.

(* ===================================================================== *)
(** ** The properties on the run *)
(* ===================================================================== *)

Import Run.

Lemma both_in_consistent : consistent both_in.
Proof. apply consistentb_sound. reflexivity. Qed.

Lemma bob_blocked_consistent : consistent bob_blocked.
Proof. apply consistentb_sound. reflexivity. Qed.

(** Alice asks to block "1": 200, and her own row is blocked. *)
Lemma block_self_string_id_not_caught_witness :
  exists db',
    @post_block Toy.jwt Toy.pg secret both_in 1100 More.block_one_as_string
    = (ok_json (JsonMessage "Users blocked successfully!"), db') /\
    In (with_status "blocked" alice) (users db') /\
    ~ In alice (users db').
Proof.
  apply (@block_self_string_id_not_caught Toy.jwt Toy.pg secret both_in 1100
           More.block_one_as_string alice [IdString "1"] [1] "1").
  - reflexivity.
  - reflexivity.
  - left. reflexivity.
  - reflexivity.
  - reflexivity.
  - reflexivity.
  - reflexivity.
Defined.


(** Bob, blocked, logs in with his own password: 403. *)
Lemma login_blocked_before_password_witness :
  @bcrypt_compare Toy.bcrypt "builder" (user_password blocked_bob) = true /\
  @post_login Toy.bcrypt Toy.jwt secret bob_blocked 1200 1200 login_bob
  = (error_json 403 "Your account has been blocked", bob_blocked).
Proof.
  split; [reflexivity|].
  apply (@login_blocked_before_password Toy.bcrypt Toy.jwt secret bob_blocked
           1200 1200 login_bob blocked_bob).
  - apply consistentb_sound. reflexivity.
  - simpl. right. left. reflexivity.
  - reflexivity.
  - reflexivity.
Defined.



(** Alice lists the accounts at time 1100, when only she has logged in. *)
Lemma users_lists_all_desc_nulls_first_witness :
  @users_listing Toy.jwt secret Toy.to_char desc_nulls_first alice_in 1100
    (bearer alice_token (targets None)).
Proof.
  apply (@users_lists_all_desc_nulls_first Toy.jwt secret Toy.to_char alice_in
           1100 (bearer alice_token (targets None)) alice).
  reflexivity.
Defined.

(** The same request does not list the accounts with those that never
    authenticated last: Bob, who never logged in, stands before Alice, who
    did. *)
Lemma users_nulls_last_fails :
  @verifyUser Toy.jwt secret alice_in 1100 (bearer alice_token (targets None))
  = inr alice /\
  ~ @users_listing Toy.jwt secret Toy.to_char desc_nulls_last alice_in 1100
      (bearer alice_token (targets None)).
Proof.
  split; [reflexivity|].
  intros [rows [Hres [_ Hsorted]]].
  assert (Hrun :
    @get_users Toy.jwt secret Toy.to_char alice_in 1100
      (bearer alice_token (targets None))
    = (ok_json (JsonRows
         [ {| row_id := 2; row_name := "Bob"; row_email := "bob@example.com";
              row_status := "active"; row_last_login := None |};
           {| row_id := 1; row_name := "Alice";
              row_email := "alice@example.com"; row_status := "active";
              row_last_login := Some (Toy.to_char 1000) |} ]), alice_in))
    by reflexivity.
  rewrite Hrun in Hres. injection Hres as Hrows.
  destruct rows as [|x [|y rows]]; try discriminate Hrows.
  inversion Hsorted as [|? ? _ Hall]; subst.
  inversion Hall as [|? ? Hxy _]; subst.
  unfold desc_nulls_last in Hxy.
  unfold users_row_of in Hrows. simpl in Hrows.
  destruct (user_last_login x); [discriminate Hrows|].
  destruct (user_last_login y); [exact Hxy | discriminate Hrows].
Qed.





(** Alice unblocks herself, Bob and an id nobody has, twice. *)
Lemma unblock_no_self_guard_idempotent_witness :
  exists db',
    @post_unblock Toy.jwt Toy.pg secret bob_blocked 1200
      (bearer alice_token (targets (Some [1; 2; 7])))
    = (ok_json (JsonMessage "User unblocked successfully!"), db') /\
    @post_unblock Toy.jwt Toy.pg secret db' 1200
      (bearer alice_token (targets (Some [1; 2; 7])))
    = (ok_json (JsonMessage "User unblocked successfully!"), db').
Proof.
  destruct (@unblock_no_self_guard_idempotent Toy.jwt Toy.pg secret bob_blocked
              1200 (bearer alice_token (targets (Some [1; 2; 7]))) alice
              [IdNumber 1; IdNumber 2; IdNumber 7] [1; 2; 7])
    as [db' [Hfirst [_ [_ Hsecond]]]].
  - reflexivity.
  - reflexivity.
  - reflexivity.
  - exists db'. split; assumption.
Defined.

(** Alice asks to unblock Bob and the id 2147483648: 500, and Bob stays
    blocked. *)
Lemma unblock_out_of_range_id_fails :
  @verifyUser Toy.jwt secret bob_blocked 1200
    (bearer alice_token (targets (Some [2; 2147483648]))) = inr alice /\
  In blocked_bob (users bob_blocked) /\
  @post_unblock Toy.jwt Toy.pg secret bob_blocked 1200
    (bearer alice_token (targets (Some [2; 2147483648])))
  = (error_json 500 "Server error", bob_blocked).
Proof.
  split; [reflexivity|]. split; [simpl; right; left; reflexivity|].
  reflexivity.
Qed.

(** Alice blocks Bob and an id nobody has. *)
Lemma block_others_frame_witness :
  exists db',
    @post_block Toy.jwt Toy.pg secret both_in 1100
      (bearer alice_token (targets (Some [2; 9])))
    = (ok_json (JsonMessage "Users blocked successfully!"), db') /\
    Forall2 (status_set_for [2; 9] "blocked") (users both_in) (users db') /\
    users_id_seq db' = users_id_seq both_in.
Proof.
  apply (@block_others_frame Toy.jwt Toy.pg secret both_in 1100
           (bearer alice_token (targets (Some [2; 9]))) alice
           [IdNumber 2; IdNumber 9] [2; 9]).
  - reflexivity.
  - reflexivity.
  - reflexivity.
  - simpl. intros [H | [H | H]]; [discriminate H | discriminate H | exact H].
Defined.

(** Alice asks to block Bob and the id 2147483648, which nobody has and the
    column cannot hold: 500, and Bob is not blocked. *)
Lemma block_out_of_range_id_fails :
  @verifyUser Toy.jwt secret both_in 1100
    (bearer alice_token (targets (Some [2; 2147483648]))) = inr alice /\
  In bob (users both_in) /\
  @post_block Toy.jwt Toy.pg secret both_in 1100
    (bearer alice_token (targets (Some [2; 2147483648])))
  = (error_json 500 "Server error", both_in).
Proof.
  split; [reflexivity|]. split; [simpl; right; left; reflexivity|].
  reflexivity.
Qed.

(** Alice posts to [/block] and [/delete] without [userIds]. *)
Lemma missing_userIds_is_server_error_witness :
  @post_block Toy.jwt Toy.pg secret both_in 1100 (bearer alice_token (targets None))
  = (error_json 500 "Server error", both_in) /\
  @post_delete Toy.jwt Toy.pg secret both_in 1100 (bearer alice_token (targets None))
  = (error_json 500 "Server error", both_in).
Proof.
  apply (@missing_userIds_is_server_error Toy.jwt Toy.pg secret both_in 1100
           (bearer alice_token (targets None)) alice).
  - reflexivity.
  - reflexivity.
Defined.

(* ===================================================================== *)
(** ** Further properties: registering and logging in *)
(* ===================================================================== *)

Section Accounts.

Context {bcrypt : Bcrypt} {jwt : Jwt} {pg : Postgres}.
Variable JWT_SECRET : string.

(** X1. A request to [/register] in which the name, the email or the password
    is missing or empty is answered 400 "All fields required"; the table and
    the sequence are untouched. *)
Theorem register_missing_field (db : database) (salt : string) (req : request) :
  falsy (body_name (req_body req)) = true \/
  falsy (body_email (req_body req)) = true \/
  falsy (body_password (req_body req)) = true ->
  post_register db salt req = (error_json 400 "All fields required", db).
Proof.
  unfold post_register, required.
  destruct (falsy (body_name (req_body req))) eqn:En;
    destruct (falsy (body_email (req_body req))) eqn:Ee;
    destruct (falsy (body_password (req_body req))) eqn:Ep;
    intros [H | [H | H]]; try discriminate H;
    repeat match goal with
           | |- context [match ?x with Some _ => _ | None => _ end] =>
               destruct x
           end; reflexivity.
Qed.


(** X3. Whatever the request, [/register] leaves the rows of the table in
    place and adds a row exactly when it answers 201: one row, with the next
    id of the sequence, status "active" and no [last_login]. *)
Theorem register_adds_at_most_one_row
    (db : database) (salt : string) (req : request) :
  let '(res, db') := post_register db salt req in
  (res_status res = 201 /\
   exists row, users db' = (users db ++ [row])%list /\
               user_id row = users_id_seq db /\
               user_status row = "active" /\ user_last_login row = None) \/
  (res_status res <> 201 /\ users db' = users db).
Proof.
  unfold post_register.
  destruct (required (body_name _)); [|right; split; [discriminate|reflexivity]].
  destruct (required (body_email _)); [|right; split; [discriminate|reflexivity]].
  destruct (required (body_password _));
    [|right; split; [discriminate|reflexivity]].
  unfold insert_user.
  destruct (varchar255 s); [|right; split; [discriminate|reflexivity]].
  destruct (varchar255 s0); [|right; split; [discriminate|reflexivity]].
  destruct (varchar255 _); [|right; split; [discriminate|reflexivity]].
  destruct (existsb _ _); [right; split; [discriminate|reflexivity]|].
  left. split; [reflexivity|]. eexists. repeat split.
Qed.

(** X4. A name of more than 255 characters whose excess is not made of spaces
    does not fit its column: [/register] answers 500 and adds no row. *)
Theorem register_name_too_long
    (db : database) (salt : string) (req : request)
    (name email password : string) :
  body_name (req_body req) = Some name ->
  body_email (req_body req) = Some email ->
  body_password (req_body req) = Some password ->
  email <> "" -> password <> "" ->
  (255 < String.length name)%nat ->
  all_spaces (substring 255 (String.length name - 255) name) = false ->
  res_status (fst (post_register db salt req)) = 500 /\
  users (snd (post_register db salt req)) = users db.
Proof.
  intros Hn He Hp He0 Hp0 Hlong Hexcess.
  assert (Hn0 : name <> "") by (intros ->; simpl in Hlong; lia).
  unfold post_register, required, falsy. rewrite Hn, He, Hp.
  apply String.eqb_neq in Hn0, He0, Hp0. rewrite Hn0, He0, Hp0.
  assert (Hcol : varchar255 name = None).
  { unfold varchar255. apply Nat.leb_gt in Hlong. now rewrite Hlong, Hexcess. }
  unfold insert_user. rewrite Hcol. split; reflexivity.
Qed.

(** X5. Logging in to an existing account that is not blocked with a body
    that has no password is answered 500 "Server error", not 400, and the
    store is unchanged. *)
Theorem login_missing_password
    (db : database) (clock now : Z) (req : request) (u : user) :
  consistent db -> In u (users db) -> user_status u <> "blocked" ->
  body_email (req_body req) = Some (user_email u) ->
  body_password (req_body req) = None ->
  post_login JWT_SECRET db clock now req = (error_json 500 "Server error", db).
Proof.
  intros Hc Hin Hst Hemail Hpw. unfold post_login.
  rewrite Hemail, (select_by_email_unique db u Hc Hin), Hpw.
  apply String.eqb_neq in Hst. now rewrite Hst.
Qed.

(** X6. Whatever the request, [/login] changes nothing in the store but
    [last_login]: the rows stay in place with the same id, name, email, hash
    and status, and the sequence is the same; and unless it answers 200 the
    store is the same store. *)
Theorem login_changes_last_login_only
    (db : database) (clock now : Z) (req : request) :
  let '(res, db') := post_login JWT_SECRET db clock now req in
  Forall2 (fun u u' => u' = with_last_login (user_last_login u') u)
          (users db) (users db') /\
  users_id_seq db' = users_id_seq db /\
  (res_status res <> 200 -> db' = db).
Proof.
  assert (Hsame : forall l : list user,
            Forall2 (fun u u' => u' = with_last_login (user_last_login u') u) l l).
  { induction l as [|u l IH]; constructor; [now destruct u | exact IH]. }
  unfold post_login.
  destruct (select_users_by_email _ _) as [|u l]; [now repeat split|].
  destruct (String.eqb _ _); [now repeat split|].
  destruct (body_password _); [|now repeat split].
  destruct (negb _); [now repeat split|].
  split; [|split; [reflexivity|intros H; now contradiction H]].
  simpl. induction (users db) as [|v l' IH]; simpl; constructor; [|exact IH].
  destruct (user_id v =? user_id u)%Z; [reflexivity | now destruct v].
Qed.

(** X7. When [/login] answers 200, the account found under the email is not
    blocked, [bcrypt.compare] accepted the password, and the response carries
    that account's id and a status other than "blocked": the client never
    receives a blocked account in a successful login. *)
Theorem login_success_means
    (db : database) (clock now : Z) (req : request) :
  res_status (fst (post_login JWT_SECRET db clock now req)) = 200 ->
  exists u password,
    In u (users db) /\
    body_email (req_body req) = Some (user_email u) /\
    body_password (req_body req) = Some password /\
    bcrypt_compare password (user_password u) = true /\
    user_status u <> "blocked" /\
    fst (post_login JWT_SECRET db clock now req)
    = ok_json (JsonLogin (jwt_sign (user_id u) JWT_SECRET 3600 clock)
                         (login_user_of u)).
Proof.
  unfold post_login.
  destruct (body_email (req_body req)) as [e|] eqn:He; [|discriminate].
  destruct (select_users_by_email db (Some e)) as [|u l] eqn:Hsel;
    [discriminate|].
  assert (Hu : In u (users db) /\ user_email u = e).
  { assert (Hin : In u (select_users_by_email db (Some e)))
      by (rewrite Hsel; now left).
    simpl in Hin. apply filter_In in Hin as [Hin Heq].
    split; [assumption | now apply String.eqb_eq]. }
  destruct Hu as [Hin Heq].
  destruct (String.eqb (user_status u) "blocked") eqn:Hst; [discriminate|].
  destruct (body_password (req_body req)) as [password|]; [|discriminate].
  destruct (bcrypt_compare password (user_password u)) eqn:Hcmp;
    [|discriminate].
  intros _. exists u, password. rewrite Heq.
  repeat split; trivial. now apply String.eqb_neq.
Qed.

End Accounts.

(* ===================================================================== *)
(** ** Further properties: the guard and the bulk routes *)
(* ===================================================================== *)

Lemma split_no_space (s : string) :
  no_space s = true -> split " "%char s = [s].
Proof.
  induction s as [|c s IH]; simpl; [reflexivity|].
  intros H. apply andb_prop in H as [Hc Hs].
  apply negb_true_iff in Hc. rewrite Hc, (IH Hs). reflexivity.
Qed.

Lemma split_at_space (a b : string) :
  no_space a = true ->
  split " "%char (a ++ String " "%char b) = a :: split " "%char b.
Proof.
  induction a as [|c a IH]; simpl; [reflexivity|].
  intros H. apply andb_prop in H as [Hc Ha].
  apply negb_true_iff in Hc. rewrite Hc, (IH Ha). reflexivity.
Qed.

Section Guard.

Context {bcrypt : Bcrypt} {jwt : Jwt} {pg : Postgres}.
Variable JWT_SECRET : string.
Variable to_char : Z -> string.

Lemma verifyUser_In (db : database) (clock : Z) (req : request) (actor : user) :
  verifyUser JWT_SECRET db clock req = inr actor ->
  In actor (users db) /\ user_status actor <> "blocked".
Proof.
  unfold verifyUser.
  destruct (bearer_token req) as [token|]; [|discriminate].
  destruct (String.eqb token ""); [discriminate|].
  destruct (jwt_verify token JWT_SECRET clock) as [e|decoded]; [discriminate|].
  destruct (jwt_id decoded) as [i|]; [|discriminate]. simpl.
  destruct (filter _ _) as [|u l] eqn:Hsel; [discriminate|].
  destruct (String.eqb (user_status u) "blocked") eqn:E; [discriminate|].
  intros [= <-]. split; [|now apply String.eqb_neq].
  assert (Hin : In u (filter (fun v => (user_id v =? i)%Z) (users db)))
    by (rewrite Hsel; now left).
  now apply filter_In in Hin.
Qed.

Lemma verifyUser_after_block (db : database) (clock : Z) (req : request)
    (actor : user) (ids : list Z) :
  verifyUser JWT_SECRET db clock req = inr actor ->
  ~ In (user_id actor) ids ->
  verifyUser JWT_SECRET (update_rows db "blocked" ids) clock req
  = inr actor.
Proof.
  unfold verifyUser.
  destruct (bearer_token req) as [token|]; [|discriminate].
  destruct (String.eqb token ""); [discriminate|].
  destruct (jwt_verify token JWT_SECRET clock) as [e|decoded]; [discriminate|].
  rewrite select_by_id_update_status.
  destruct (select_users_by_id db (jwt_id decoded)) as [|u l]; [discriminate|].
  destruct (String.eqb (user_status u) "blocked") eqn:E; [discriminate|].
  intros [= ->] Hother. apply includes_not_In in Hother.
  simpl. now rewrite Hother, E.
Qed.

(** X8. After a successful login, a request that carries the token of the
    response passes the guard on the new store at any time before the hour
    is over, and the guard attaches the account with its new
    [last_login]. *)
Theorem login_token_passes_guard
    (db : database) (clock now t : Z) (req guarded : request)
    (u : user) (password : string) :
  JWT_SECRET <> "" ->
  consistent db -> In u (users db) -> user_status u <> "blocked" ->
  body_email (req_body req) = Some (user_email u) ->
  body_password (req_body req) = Some password ->
  bcrypt_compare password (user_password u) = true ->
  bearer_token guarded = Some (jwt_sign (user_id u) JWT_SECRET 3600 clock) ->
  jwt_sign (user_id u) JWT_SECRET 3600 clock <> "" ->
  t < clock + 3600 ->
  verifyUser JWT_SECRET (snd (post_login JWT_SECRET db clock now req)) t guarded
  = inr (with_last_login (Some now) u).
Proof.
  intros Hkey Hc Hin Hst Hemail Hpw Hcmp Htoken Hne Ht.
  assert (Hdb : snd (post_login JWT_SECRET db clock now req)
                = update_last_login db now (user_id u)).
  { unfold post_login.
    rewrite Hemail, (select_by_email_unique db u Hc Hin), Hpw, Hcmp.
    apply String.eqb_neq in Hst. now rewrite Hst. }
  rewrite Hdb. clear Hdb.
  set (u' := with_last_login (Some now) u).
  assert (Hin' : In u' (users (update_last_login db now (user_id u)))).
  { simpl. apply in_map_iff. exists u. split; [|assumption].
    now rewrite Z.eqb_refl. }
  pose proof (select_by_id_unique _ u'
                (consistent_update_last_login db now (user_id u) Hc) Hin')
    as Hsel.
  unfold verifyUser. rewrite Htoken.
  apply String.eqb_neq in Hne. rewrite Hne.
  rewrite (jwt_verify_sign _ _ _ _ _ Hkey).
  apply Z.ltb_lt in Ht. rewrite Ht. cbn [jwt_id].
  change (select_users_by_id (update_last_login db now (user_id u))
            (Some (user_id u)) = [u']) in Hsel.
  rewrite Hsel.
  apply String.eqb_neq in Hst. cbn [user_status u' with_last_login].
  now rewrite Hst.
Qed.

(** X9. Once the hour is over the token no longer passes: whatever the store
    holds, the guard answers 401 "Invalid token". *)
Theorem expired_token_rejected
    (db : database) (clock t i : Z) (guarded : request) :
  JWT_SECRET <> "" ->
  bearer_token guarded = Some (jwt_sign i JWT_SECRET 3600 clock) ->
  jwt_sign i JWT_SECRET 3600 clock <> "" ->
  clock + 3600 <= t ->
  verifyUser JWT_SECRET db t guarded = inl (error_json 401 "Invalid token").
Proof.
  intros Hkey Htoken Hne Ht. unfold verifyUser. rewrite Htoken.
  apply String.eqb_neq in Hne. rewrite Hne.
  rewrite (jwt_verify_sign _ _ _ _ _ Hkey).
  replace (t <? clock + 3600)%Z with false; [reflexivity|].
  symmetry. apply Z.ltb_ge. lia.
Qed.

(** X10. Once [/delete] has gone through with the id of an account among the
    ids PostgreSQL read from [userIds], a request with a token that verifies
    to that id is answered 403 "User not found". *)
Theorem deleted_account_token_rejected
    (db : database) (clock_d clock : Z) (req_d req : request)
    (actor : user) (userIds : list id_value) (ids : list Z)
    (token : string) (decoded : jwt_payload) (i : Z) :
  verifyUser JWT_SECRET db clock_d req_d = inr actor ->
  body_userIds (req_body req_d) = Some userIds ->
  int4_array userIds = Some ids ->
  js_includes userIds (user_id actor) = false ->
  bearer_token req = Some token -> token <> "" ->
  jwt_verify token JWT_SECRET clock = inr decoded ->
  jwt_id decoded = Some i -> In i ids ->
  fst (post_delete JWT_SECRET db clock_d req_d)
  = ok_json (JsonMessage "User deleted successfully!") /\
  verifyUser JWT_SECRET (snd (post_delete JWT_SECRET db clock_d req_d)) clock req
  = inl (error_json 403 "User not found").
Proof.
  intros Hguard Hids Hread Hjs Htoken Hne Hdec Hid Htarget.
  unfold post_delete, protected. rewrite Hguard.
  rewrite (delete_handler_read db actor req_d userIds ids Hids Hread Hjs).
  cbn [fst snd]. split; [reflexivity|].
  unfold verifyUser. rewrite Htoken.
  apply String.eqb_neq in Hne. rewrite Hne, Hdec, Hid.
  rewrite select_by_id_delete, filter_none; [reflexivity|].
  intros v Hv. simpl in Hv. apply filter_In in Hv as [_ Hv].
  apply Z.eqb_eq in Hv. rewrite Hv.
  apply includes_In in Htarget. now rewrite Htarget.
Qed.

(** X11. Blocking accounts that are active and unblocking the same ids with
    the same credentials gives back the store as it was, when PostgreSQL
    reads every element of [userIds] as an integer and the actor's id is
    not among them. *)
Theorem block_then_unblock_restores
    (db : database) (clock : Z) (req : request) (actor : user)
    (userIds : list id_value) (ids : list Z) :
  verifyUser JWT_SECRET db clock req = inr actor ->
  body_userIds (req_body req) = Some userIds ->
  int4_array userIds = Some ids ->
  ~ In (user_id actor) ids ->
  (forall u, In u (users db) -> In (user_id u) ids ->
             user_status u = "active") ->
  fst (post_block JWT_SECRET db clock req)
  = ok_json (JsonMessage "Users blocked successfully!") /\
  post_unblock JWT_SECRET (snd (post_block JWT_SECRET db clock req)) clock req
  = (ok_json (JsonMessage "User unblocked successfully!"), db).
Proof.
  intros Hguard Hids Hread Hother Hactive.
  unfold post_block, protected. rewrite Hguard.
  rewrite (block_handler_read db actor req userIds ids Hids Hread
             (js_includes_not_read userIds ids _ Hread Hother)).
  cbn [fst snd]. split; [reflexivity|]. unfold post_unblock, protected.
  rewrite (verifyUser_after_block db clock req actor ids Hguard Hother).
  rewrite (unblock_handler_read _ actor req userIds ids Hids Hread). f_equal.
  destruct db as [rows next]. unfold update_rows. simpl. f_equal.
  rewrite map_map. simpl in Hactive.
  rewrite <- (map_id rows) at 2. apply map_ext_in. intros u Hu.
  destruct (includes ids (user_id u)) eqn:E; simpl; rewrite E; [|reflexivity].
  apply includes_In in E. specialize (Hactive u Hu E).
  destruct u; simpl in *. now subst.
Qed.

(** X12. When the actor's id is among [userIds] as a number, [/delete]
    answers 403 "Cannot delete yourself" and deletes nothing, the other
    targets included, whatever else the array holds. *)
Theorem delete_self_rejects_whole_batch
    (db : database) (clock : Z) (req : request) (actor : user)
    (userIds : list id_value) :
  verifyUser JWT_SECRET db clock req = inr actor ->
  body_userIds (req_body req) = Some userIds ->
  In (IdNumber (user_id actor)) userIds ->
  post_delete JWT_SECRET db clock req
  = (error_json 403 "Cannot delete yourself", db).
Proof.
  intros Hguard Hids Hself.
  unfold post_delete, protected. rewrite Hguard.
  unfold delete_handler. rewrite Hids.
  replace (js_includes userIds (user_id actor)) with true; [reflexivity|].
  symmetry. apply existsb_exists. exists (IdNumber (user_id actor)).
  split; [assumption | apply Z.eqb_refl].
Qed.

(** X13. When PostgreSQL reads every element of [userIds] as an integer and
    no account has one of these ids (the empty array included), [/block],
    [/unblock] and [/delete] answer 200 all the same and the store is
    unchanged. *)
Theorem bulk_unknown_ids_no_effect
    (db : database) (clock : Z) (req : request) (actor : user)
    (userIds : list id_value) (ids : list Z) :
  verifyUser JWT_SECRET db clock req = inr actor ->
  body_userIds (req_body req) = Some userIds ->
  int4_array userIds = Some ids ->
  (forall u, In u (users db) -> ~ In (user_id u) ids) ->
  post_block JWT_SECRET db clock req
  = (ok_json (JsonMessage "Users blocked successfully!"), db) /\
  post_unblock JWT_SECRET db clock req
  = (ok_json (JsonMessage "User unblocked successfully!"), db) /\
  post_delete JWT_SECRET db clock req
  = (ok_json (JsonMessage "User deleted successfully!"), db).
Proof.
  intros Hguard Hids Hread Hnone.
  destruct (verifyUser_In db clock req actor Hguard) as [Hin _].
  pose proof (js_includes_not_read userIds ids _ Hread (Hnone actor Hin))
    as Hjs.
  assert (Hstatus : forall st, update_rows db st ids = db).
  { intros st. destruct db as [rows next]. unfold update_rows. simpl.
    f_equal. rewrite <- (map_id rows) at 2. apply map_ext_in. intros u Hu.
    specialize (Hnone u Hu). apply includes_not_In in Hnone.
    now rewrite Hnone. }
  assert (Hdelete : delete_rows db ids = db).
  { destruct db as [rows next]. unfold delete_rows. simpl. f_equal.
    simpl in Hnone. clear Hguard Hin Hstatus.
    induction rows as [|u rows IH]; simpl; [reflexivity|].
    pose proof (Hnone u (or_introl eq_refl)) as Hu.
    apply includes_not_In in Hu. rewrite Hu. simpl. f_equal.
    apply IH. intros v Hv. apply Hnone. now right. }
  unfold post_block, post_unblock, post_delete, protected. rewrite Hguard.
  rewrite (block_handler_read db actor req userIds ids Hids Hread Hjs).
  rewrite (unblock_handler_read db actor req userIds ids Hids Hread).
  rewrite (delete_handler_read db actor req userIds ids Hids Hread Hjs).
  rewrite !Hstatus, Hdelete. repeat split.
Qed.

(** X14. A blocked account cannot act, not even to unblock itself: with a
    token that verifies to its id, [/users], [/block], [/unblock] and
    [/delete] all answer 403 "Your account has been blocked" and leave the
    store unchanged, whatever the body asks for. *)
Theorem blocked_account_cannot_act
    (db : database) (clock : Z) (req : request) (u : user)
    (token : string) (decoded : jwt_payload) :
  consistent db -> In u (users db) -> user_status u = "blocked" ->
  bearer_token req = Some token -> token <> "" ->
  jwt_verify token JWT_SECRET clock = inr decoded ->
  jwt_id decoded = Some (user_id u) ->
  let blocked := (error_json 403 "Your account has been blocked", db) in
  get_users JWT_SECRET to_char db clock req = blocked /\
  post_block JWT_SECRET db clock req = blocked /\
  post_unblock JWT_SECRET db clock req = blocked /\
  post_delete JWT_SECRET db clock req = blocked.
Proof.
  intros Hc Hin Hst Htoken Hne Hdec Hid blocked.
  assert (Hguard : verifyUser JWT_SECRET db clock req
                   = inl (error_json 403 "Your account has been blocked")).
  { unfold verifyUser. rewrite Htoken.
    apply String.eqb_neq in Hne. rewrite Hne, Hdec, Hid.
    now rewrite (select_by_id_unique db u Hc Hin), Hst. }
  unfold get_users, post_block, post_unblock, post_delete, protected.
  rewrite Hguard. repeat split.
Qed.

(** X15. The guard takes the second word of the [Authorization] header and
    does not look at the first: under "Bearer" or any other word without a
    space, a token without a space is judged the same. *)
Theorem guard_ignores_scheme
    (db : database) (clock : Z) (scheme token : string) (b : body) :
  no_space scheme = true -> no_space token = true ->
  bearer_token {| authorization := Some (scheme ++ " " ++ token);
                  req_body := b |} = Some token /\
  verifyUser JWT_SECRET db clock
    {| authorization := Some (scheme ++ " " ++ token); req_body := b |}
  = verifyUser JWT_SECRET db clock
      {| authorization := Some ("Bearer " ++ token); req_body := b |}.
Proof.
  intros Hs Ht.
  assert (Hparse : forall w, no_space w = true ->
            bearer_token {| authorization := Some (w ++ " " ++ token);
                            req_body := b |} = Some token).
  { intros w Hw. unfold bearer_token. cbn [authorization].
    change (w ++ " " ++ token) with (w ++ String " "%char token).
    now rewrite (split_at_space w token Hw), (split_no_space token Ht). }
  split; [now apply Hparse|].
  unfold verifyUser. rewrite (Hparse scheme Hs).
  change ("Bearer " ++ token) with ("Bearer" ++ " " ++ token).
  now rewrite (Hparse "Bearer" eq_refl).
Qed.

(** X16. A header without a space, be it the bare token or the bare word
    "Bearer", is no token: the guard answers 401 "Unauthorized". *)
Theorem header_without_space_unauthorized
    (db : database) (clock : Z) (header : string) (b : body) :
  no_space header = true ->
  verifyUser JWT_SECRET db clock
    {| authorization := Some header; req_body := b |}
  = inl (error_json 401 "Unauthorized").
Proof.
  intros H. unfold verifyUser, bearer_token. cbn [authorization].
  now rewrite (split_no_space header H).
Qed.

End Guard.

(* ===================================================================== *)
(** ** Further properties: what holds across requests *)
(* ===================================================================== *)

Lemma same_account_refl (u : user) : same_account u u.
Proof. unfold same_account. tauto. Qed.

Lemma same_account_trans (u v w : user) :
  same_account u v -> same_account v w -> same_account u w.
Proof.
  unfold same_account.
  intros (H1 & H2 & H3 & H4 & H5) (K1 & K2 & K3 & K4 & K5).
  repeat split; try congruence.
  destruct K5 as [K | [K | K]]; [destruct H5 as [H | [H | H]]|..];
    try (right; left; congruence); try (right; right; congruence).
  left. congruence.
Qed.

Section AcrossRequests.

Context {bcrypt : Bcrypt} {jwt : Jwt} {pg : Postgres}.
Variable JWT_SECRET : string.

(** A row after a bulk status update comes from a row before it. *)
Lemma update_status_origin (db : database) (st : string)
    (ids : list Z) (u' : user) :
  st = "active" \/ st = "blocked" ->
  In u' (users (update_rows db st ids)) ->
  exists u, In u (users db) /\ same_account u u'.
Proof.
  intros Hst Hin.
  simpl in Hin. apply in_map_iff in Hin as [u [<- Hu]].
  exists u. split; [assumption|].
  destruct (includes ids (user_id u)); [|apply same_account_refl].
  unfold same_account. simpl. tauto.
Qed.

(** One request: the sequence does not go back, and a row of the new store
    is a row of the old one, up to status and [last_login], or the row just
    registered under the id the sequence gave. *)
Lemma served_rows (db db' : database) :
  served JWT_SECRET db db' ->
  users_id_seq db <= users_id_seq db' /\
  forall u', In u' (users db') ->
    (exists u, In u (users db) /\ same_account u u') \/
    (user_id u' = users_id_seq db /\ user_status u' = "active").
Proof.
  assert (Hkeep : forall d : database, users_id_seq db <= users_id_seq d ->
            (forall u', In u' (users d) -> In u' (users db)) ->
            users_id_seq db <= users_id_seq d /\
            forall u', In u' (users d) ->
              (exists u, In u (users db) /\ same_account u u') \/
              (user_id u' = users_id_seq db /\ user_status u' = "active")).
  { intros d Hseq Hsub. split; [assumption|]. intros u' Hu'. left.
    exists u'. split; [now apply Hsub | apply same_account_refl]. }
  assert (Hstatus : forall st ids, st = "active" \/ st = "blocked" ->
            users_id_seq db <= users_id_seq (update_rows db st ids) /\
            forall u', In u' (users (update_rows db st ids)) ->
              (exists u, In u (users db) /\ same_account u u') \/
              (user_id u' = users_id_seq db /\ user_status u' = "active")).
  { intros st ids Hst. split; [simpl; lia|].
    intros u' Hu'. left. now apply (update_status_origin db st ids). }
  assert (Hsame : users_id_seq db <= users_id_seq db /\
            forall u', In u' (users db) ->
              (exists u, In u (users db) /\ same_account u u') \/
              (user_id u' = users_id_seq db /\ user_status u' = "active")).
  { apply Hkeep; [lia | trivial]. }
  intros Hstep. destruct Hstep as [salt req | clock now req | clock req
                                  | clock req | clock req].
  - unfold post_register.
    destruct (required (body_name _)) as [n|]; [|exact Hsame].
    destruct (required (body_email _)) as [e|]; [|exact Hsame].
    destruct (required (body_password _)) as [p|]; [|exact Hsame].
    assert (Hbump : users_id_seq db <= users_id_seq db + 1 /\
              forall u', In u' (users db) ->
                (exists u, In u (users db) /\ same_account u u') \/
                (user_id u' = users_id_seq db /\ user_status u' = "active")).
    { split; [lia | apply Hsame]. }
    unfold insert_user.
    destruct (varchar255 n); [|exact Hsame].
    destruct (varchar255 e); [|exact Hsame].
    destruct (varchar255 _); [|exact Hsame].
    destruct (existsb _ _); [exact Hbump|].
    cbn [snd users users_id_seq]. split; [lia|].
    intros u' Hu'. apply in_app_or in Hu' as [Hu' | [<- | []]].
    + left. exists u'. split; [assumption | apply same_account_refl].
    + right. split; reflexivity.
  - unfold post_login.
    destruct (select_users_by_email _ _) as [|u l]; [exact Hsame|].
    destruct (String.eqb _ _); [exact Hsame|].
    destruct (body_password _); [|exact Hsame].
    destruct (negb _); [exact Hsame|].
    cbn [snd]. split; [simpl; lia|].
    intros u' Hu'. left. simpl in Hu'.
    apply in_map_iff in Hu' as [v [<- Hv]]. exists v. split; [assumption|].
    destruct (user_id v =? user_id u)%Z; [|apply same_account_refl].
    unfold same_account. simpl. tauto.
  - unfold post_block, protected.
    destruct (verifyUser _ _ _ _); [exact Hsame|]. unfold block_handler.
    destruct (body_userIds _) as [l|]; [|exact Hsame].
    destruct (js_includes _ _); [exact Hsame|]. simpl.
    destruct (int4_array l) as [ids|]; [|exact Hsame].
    cbn [option_map snd]. apply Hstatus. now right.
  - unfold post_unblock, protected.
    destruct (verifyUser _ _ _ _); [exact Hsame|]. unfold unblock_handler.
    destruct (body_userIds _) as [l|]; [|exact Hsame]. simpl.
    destruct (int4_array l) as [ids|]; [|exact Hsame].
    cbn [option_map snd]. apply Hstatus. now left.
  - unfold post_delete, protected.
    destruct (verifyUser _ _ _ _); [exact Hsame|]. unfold delete_handler.
    destruct (body_userIds _) as [l|]; [|exact Hsame].
    destruct (js_includes _ _); [exact Hsame|]. simpl.
    destruct (int4_array l) as [ids|]; [|exact Hsame].
    cbn [option_map snd]. apply Hkeep; [simpl; lia|].
    intros u' Hu'. simpl in Hu'. now apply filter_In in Hu'.
Qed.

Lemma served_many_rows (db db' : database) :
  served_many JWT_SECRET db db' ->
  users_id_seq db <= users_id_seq db' /\
  forall u', In u' (users db') -> user_id u' < users_id_seq db ->
    exists u, In u (users db) /\ same_account u u'.
Proof.
  induction 1 as [|db1 db2 Hmany [IHseq IHrows] Hstep].
  - split; [lia|]. intros u' Hu' _. exists u'.
    split; [assumption | apply same_account_refl].
  - destruct (served_rows db1 db2 Hstep) as [Hseq Hrows].
    split; [lia|]. intros u2 Hu2 Hold.
    destruct (Hrows u2 Hu2) as [[u1 [Hu1 H12]] | [Hnew _]]; [|lia].
    destruct (IHrows u1 Hu1) as [u [Hu H01]].
    + destruct H12 as [Hid _]. lia.
    + exists u. split; [assumption|]. now apply (same_account_trans u u1 u2).
Qed.

(** X17. An id is given once: if the sequence is past [i] and no account has
    the id [i] (it was deleted, or its registration failed), then whatever
    requests are served next, no account has the id [i]. *)
Theorem id_never_reused (db db' : database) (i : Z) :
  served_many JWT_SECRET db db' ->
  i < users_id_seq db ->
  (forall u, In u (users db) -> user_id u <> i) ->
  forall u', In u' (users db') -> user_id u' <> i.
Proof.
  intros Hmany Hi Hfree u' Hu' Heq.
  destruct (served_many_rows db db' Hmany) as [_ Hrows].
  destruct (Hrows u' Hu') as [u [Hu [Hid _]]]; [lia|].
  apply (Hfree u Hu). congruence.
Qed.

(** X18. No request changes the name, the email or the password hash of an
    account: whatever requests are served, an account with the id of an
    account of the earlier store has that account's name, email and hash. *)
Theorem account_fields_immutable (db db' : database) (u u' : user) :
  consistent db ->
  served_many JWT_SECRET db db' ->
  In u (users db) -> In u' (users db') -> user_id u' = user_id u ->
  user_name u' = user_name u /\ user_email u' = user_email u /\
  user_password u' = user_password u.
Proof.
  intros Hc Hmany Hu Hu' Hid.
  destruct (served_many_rows db db' Hmany) as [_ Hrows].
  pose proof (ids_below_seq db Hc) as Hlt. rewrite Forall_forall in Hlt.
  destruct (Hrows u' Hu') as [v [Hv (Kid & Kn & Ke & Kp & _)]].
  - rewrite Hid. now apply Hlt.
  - assert (v = u) as ->.
    { apply (unique_key_inj user_id (users db)); trivial.
      - apply (ids_unique db Hc).
      - congruence. }
    repeat split; assumption.
Qed.

(** X19. In every store the server can be in, the status of an account is
    "active" or "blocked". *)
Theorem status_active_or_blocked (db : database) (u : user) :
  reachable JWT_SECRET db -> In u (users db) ->
  user_status u = "active" \/ user_status u = "blocked".
Proof.
  intros Hreach. revert u.
  induction Hreach as [|db db' Hreach IH Hstep]; intros u' Hu'; [contradiction|].
  destruct (served_rows db db' Hstep) as [_ Hrows].
  destruct (Hrows u' Hu') as [[u [Hu (_ & _ & _ & _ & Hst)]] | [_ Hnew]].
  - destruct Hst as [Hst | Hst]; [|exact Hst]. rewrite Hst. now apply IH.
  - now left.
Qed.

End AcrossRequests.

(* ===================================================================== *)
(** ** Further properties: the two servers, and the order of the routes *)
(* ===================================================================== *)

Section TwoServers.

Context {bcrypt : Bcrypt} {jwt : Jwt} {pg : Postgres}.
Variable JWT_SECRET : string.
Variable to_char : Z -> string.

Lemma api_verifyUser_agrees (db : database) (clock : Z) (req : request) :
  match verifyUser JWT_SECRET db clock req,
        api_verifyUser JWT_SECRET db clock req with
  | inr u, inr u' => u = u'
  | inl res, inl res' => res_status res = res_status res'
  | _, _ => False
  end.
Proof.
  unfold verifyUser, api_verifyUser.
  destruct (bearer_token req) as [token|]; [|reflexivity].
  destruct (String.eqb token ""); [reflexivity|].
  destruct (jwt_verify token JWT_SECRET clock); [reflexivity|].
  destruct (select_users_by_id _ _); [reflexivity|].
  destruct (String.eqb _ _); reflexivity.
Qed.

Lemma api_protected_agrees
    (h h' : database -> user -> request -> response * database)
    (db : database) (clock : Z) (req : request) :
  (forall u, same_outcome (h' db u req) (h db u req)) ->
  same_outcome (api_protected JWT_SECRET h' db clock req)
               (protected JWT_SECRET h db clock req).
Proof.
  intros Hh. unfold api_protected, protected.
  pose proof (api_verifyUser_agrees db clock req) as Hg.
  destruct (verifyUser JWT_SECRET db clock req),
           (api_verifyUser JWT_SECRET db clock req); try contradiction.
  - split; [symmetry; exact Hg | reflexivity].
  - subst. apply Hh.
Qed.

(** X20. The routes under [/api] of the second server and the routes of the
    first answer every request with the same status code and leave the same
    store; the two servers differ in the wording of their messages only. *)
Theorem api_routes_agree
    (db : database) (salt : string) (clock now : Z) (req : request) :
  same_outcome (api_register db salt req) (post_register db salt req) /\
  same_outcome (api_login JWT_SECRET db clock now req)
               (post_login JWT_SECRET db clock now req) /\
  same_outcome (api_users JWT_SECRET to_char db clock req)
               (get_users JWT_SECRET to_char db clock req) /\
  same_outcome (api_block JWT_SECRET db clock req)
               (post_block JWT_SECRET db clock req) /\
  same_outcome (api_unblock JWT_SECRET db clock req)
               (post_unblock JWT_SECRET db clock req) /\
  same_outcome (api_delete JWT_SECRET db clock req)
               (post_delete JWT_SECRET db clock req).
Proof.
  split; [|split; [|split; [|split; [|split]]]].
  - unfold api_register, post_register.
    destruct (required (body_name _)); [|now split].
    destruct (required (body_email _)); [|now split].
    destruct (required (body_password _)); [|now split].
    destruct (insert_user _ _ _ _) as [[err|row] db']; [|now split].
    destruct (String.eqb _ _); now split.
  - unfold api_login, post_login.
    destruct (select_users_by_email _ _); [now split|].
    destruct (String.eqb _ _); [now split|].
    destruct (body_password _); [|now split].
    destruct (negb _); now split.
  - apply api_protected_agrees. intros u. now split.
  - apply api_protected_agrees. intros u.
    unfold api_block_handler, block_handler.
    destruct (body_userIds _); [|now split].
    destruct (js_includes _ _); [now split|].
    destruct (update_status _ _ _); now split.
  - apply api_protected_agrees. intros u.
    unfold api_unblock_handler, unblock_handler.
    destruct (update_status _ _ _); now split.
  - apply api_protected_agrees. intros u.
    unfold api_delete_handler, delete_handler.
    destruct (body_userIds _); [|now split].
    destruct (js_includes _ _); [now split|].
    destruct (delete_users _ _); now split.
Qed.

End TwoServers.

Section RouteOrder.

Variable path_matches : string -> string -> bool.
Variable static_serves : string -> bool.

(** X21. In the first server the catch-all [app.get('*')] is registered
    before [/debug-db], [/users] and [/]: when the pattern "*" matches every
    path, a GET request is answered by a static file or by [index.html],
    and no request of either method reaches the handlers of [/users],
    [/debug-db] or [/]. *)
Theorem get_routes_shadowed (m : method) (path : string) :
  (forall p, path_matches "*" p = true) ->
  (m = GET ->
   dispatch path_matches static_serves m path = StaticFile \/
   dispatch path_matches static_serves m path = IndexHtml) /\
  dispatch path_matches static_serves m path <> Users /\
  dispatch path_matches static_serves m path <> DebugDb /\
  dispatch path_matches static_serves m path <> Root.
Proof.
  intros Hstar. unfold dispatch. destruct m; simpl.
  - destruct (static_serves path); simpl.
    + repeat split; try discriminate. intros _. now left.
    + rewrite Hstar. simpl. repeat split; try discriminate. intros _. now right.
  - split; [discriminate|].
    destruct (path_matches "/register" path); simpl;
      [repeat split; discriminate|].
    destruct (path_matches "/login" path); simpl;
      [repeat split; discriminate|].
    destruct (path_matches "/block" path); simpl;
      [repeat split; discriminate|].
    destruct (path_matches "/unblock" path); simpl;
      [repeat split; discriminate|].
    destruct (path_matches "/delete" path); simpl; repeat split; discriminate.
Qed.

End RouteOrder.

(* ===================================================================== *)
(** ** Further properties: the selection of the client *)
(* ===================================================================== *)

Lemma In_filter_neq (id x : Z) (l : list Z) :
  In x (filter (fun userId => negb (userId =? id)%Z) l) <-> In x l /\ x <> id.
Proof.
  rewrite filter_In, negb_true_iff, Z.eqb_neq. reflexivity.
Qed.

Lemma handleSelectUser_In (id x : Z) (prev : list Z) :
  In x (handleSelectUser id prev) <->
  (x = id /\ ~ In id prev) \/ (x <> id /\ In x prev).
Proof.
  unfold handleSelectUser. destruct (includes prev id) eqn:E.
  - apply includes_In in E. rewrite In_filter_neq. split.
    + intros [Hx Hne]. right. now split.
    + intros [[-> Hno] | [Hne Hx]]; [contradiction | now split].
  - apply includes_not_In in E. rewrite in_app_iff. simpl. split.
    + intros [Hx | [<- | []]].
      * right. split; [|assumption]. intros ->. contradiction.
      * left. now split.
    + intros [[-> _] | [_ Hx]]; [right; now left | now left].
Qed.

(** X22. [handleSelectUser(id)] flips the box of [id] and no other: [id] is
    selected afterwards exactly when it was not before, and any other id is
    selected afterwards exactly when it was before. *)
Theorem handleSelectUser_flips (id : Z) (prev : list Z) :
  (In id (handleSelectUser id prev) <-> ~ In id prev) /\
  (forall x, x <> id -> (In x (handleSelectUser id prev) <-> In x prev)).
Proof.
  split; [|intros x Hne]; rewrite handleSelectUser_In; intuition congruence.
Qed.

(** X23. A selection without duplicates stays without duplicates under
    [handleSelectUser], and clicking the same box twice gives back the
    selection, up to the order of the ids. *)
Theorem handleSelectUser_twice (id : Z) (prev : list Z) :
  NoDup prev ->
  NoDup (handleSelectUser id prev) /\
  Permutation (handleSelectUser id (handleSelectUser id prev)) prev.
Proof.
  intros Hnd.
  assert (Hstep : forall l, NoDup l -> NoDup (handleSelectUser id l)).
  { intros l Hl. unfold handleSelectUser. destruct (includes l id) eqn:E.
    - now apply NoDup_filter.
    - apply includes_not_In in E. now apply NoDup_snoc. }
  split; [now apply Hstep|].
  apply NoDup_Permutation; [now apply Hstep, Hstep | assumption|].
  intros x. rewrite !handleSelectUser_In.
  destruct (Z.eq_dec x id) as [-> | Hne]; destruct (in_dec Z.eq_dec id prev);
    intuition congruence.
Qed.

(** X24. For a list of accounts with distinct ids and a selection without
    duplicates taken from it, the box in the table head is checked exactly
    when the list is not empty and the box of every row is checked. *)
Theorem select_all_checked_iff
    (selectedUsers : list Z) (listed : list users_row) :
  NoDup (map row_id listed) -> NoDup selectedUsers ->
  incl selectedUsers (map row_id listed) ->
  (select_all_checked selectedUsers listed = true <->
   listed <> [] /\
   forall u, In u listed -> row_checked selectedUsers u = true).
Proof.
  intros Hids Hsel Hincl. unfold select_all_checked, row_checked.
  rewrite andb_true_iff, Nat.eqb_eq, Nat.ltb_lt. split.
  - intros [Hlen Hpos]. split; [intros ->; simpl in Hpos; lia|].
    assert (Hback : incl (map row_id listed) selectedUsers).
    { apply NoDup_length_incl; [assumption | rewrite length_map; lia
                               | assumption]. }
    intros u Hu. apply includes_In, Hback. now apply in_map.
  - intros [Hne Hall]. split.
    + apply Nat.le_antisymm.
      * rewrite <- (length_map row_id listed).
        now apply NoDup_incl_length.
      * rewrite <- (length_map row_id listed).
        apply NoDup_incl_length; [assumption|].
        intros i Hi. apply in_map_iff in Hi as [u [<- Hu]].
        now apply includes_In, Hall.
    + destruct listed; [contradiction | simpl; lia].
Qed.

(** X25. [handleSelectAll] with the box checked selects the id of every
    listed row, so that every row box is checked and the head box is checked
    unless the list is empty; with the box unchecked it selects nothing. *)
Theorem handleSelectAll_boxes (listed : list users_row) :
  (forall u, In u listed ->
             row_checked (handleSelectAll true listed) u = true) /\
  select_all_checked (handleSelectAll true listed) listed
  = negb (Nat.eqb (List.length listed) 0) /\
  (forall u, row_checked (handleSelectAll false listed) u = false).
Proof.
  unfold handleSelectAll, row_checked, select_all_checked.
  split; [|split].
  - intros u Hu. apply includes_In. now apply in_map.
  - rewrite length_map, Nat.eqb_refl. now destruct listed.
  - reflexivity.
Qed.

Section SelectAll.

Context {jwt : Jwt} {pg : Postgres}.
Variable JWT_SECRET : string.
Variable to_char : Z -> string.

(** X26. The acting account is in the list it is shown, so a client that
    selects all the listed accounts and asks to block or to delete them is
    turned down: 403 "You cannot block yourself", 403 "Cannot delete
    yourself", and the store is unchanged. *)
Theorem select_all_then_bulk_rejected
    (db : database) (clock clock' : Z) (req : request) (actor : user)
    (rows : list users_row) (token : option string) :
  verifyUser JWT_SECRET db clock req = inr actor ->
  get_users JWT_SECRET to_char db clock req = (ok_json (JsonRows rows), db) ->
  verifyUser JWT_SECRET db clock'
    (bulk_request token (handleSelectAll true rows)) = inr actor ->
  post_block JWT_SECRET db clock'
    (bulk_request token (handleSelectAll true rows))
  = (error_json 403 "You cannot block yourself", db) /\
  post_delete JWT_SECRET db clock'
    (bulk_request token (handleSelectAll true rows))
  = (error_json 403 "Cannot delete yourself", db).
Proof.
  intros Hguard Hlist Hguard'.
  assert (Hself : In (user_id actor) (handleSelectAll true rows)).
  { unfold get_users, protected in Hlist. rewrite Hguard in Hlist.
    unfold users_handler in Hlist. injection Hlist as <-.
    destruct (verifyUser_In JWT_SECRET db clock req actor Hguard) as [Hin _].
    unfold handleSelectAll. rewrite map_map. simpl.
    apply in_map.
    now apply (Permutation_in _ (Permutation_sym (order_by_perm (users db)))). }
  apply includes_In in Hself.
  unfold post_block, post_delete, protected. rewrite Hguard'.
  unfold block_handler, delete_handler. cbn [bulk_request req_body body_userIds].
  now rewrite js_includes_numbers, Hself.
Qed.

End SelectAll.

(* ===================================================================== *)
(** ** The further properties on the run *)
(* ===================================================================== *)

Import More.

(** Registering with an empty name. *)
Lemma register_missing_field_witness :
  @post_register Toy.bcrypt both_in "s3"
    (anonymous (fields (Some "") (Some "carol@example.com") (Some "singer")))
  = (error_json 400 "All fields required", both_in).
Proof.
  apply (@register_missing_field Toy.bcrypt both_in "s3").
  left. reflexivity.
Defined.


(** Registering with a name of 256 characters. *)
Lemma register_name_too_long_witness :
  res_status
    (fst (@post_register Toy.bcrypt both_in "s5"
            (anonymous (fields (Some long_name) (Some "zed@example.com")
                               (Some "zorro"))))) = 500 /\
  users
    (snd (@post_register Toy.bcrypt both_in "s5"
            (anonymous (fields (Some long_name) (Some "zed@example.com")
                               (Some "zorro"))))) = users both_in.
Proof.
  apply (@register_name_too_long Toy.bcrypt both_in "s5"
           (anonymous (fields (Some long_name) (Some "zed@example.com")
                              (Some "zorro")))
           long_name "zed@example.com" "zorro").
  - reflexivity.
  - reflexivity.
  - reflexivity.
  - discriminate.
  - discriminate.
  - apply Nat.ltb_lt. reflexivity.
  - reflexivity.
Defined.

(** Bob logs in without a password. *)
Lemma login_missing_password_witness :
  @post_login Toy.bcrypt Toy.jwt secret both_in 1200 1200
    (anonymous (fields None (Some "bob@example.com") None))
  = (error_json 500 "Server error", both_in).
Proof.
  apply (@login_missing_password Toy.bcrypt Toy.jwt secret both_in 1200 1200
           (anonymous (fields None (Some "bob@example.com") None)) bob).
  - apply consistentb_sound. reflexivity.
  - simpl. right. left. reflexivity.
  - discriminate.
  - reflexivity.
  - reflexivity.
Defined.

(** Alice's first login. *)
Lemma login_success_means_witness :
  exists u password,
    In u (users registered) /\
    body_email (req_body login_alice) = Some (user_email u) /\
    body_password (req_body login_alice) = Some password /\
    @bcrypt_compare Toy.bcrypt password (user_password u) = true /\
    user_status u <> "blocked" /\
    fst (@post_login Toy.bcrypt Toy.jwt secret registered 1000 1000 login_alice)
    = ok_json (JsonLogin (@jwt_sign Toy.jwt (user_id u) secret 3600 1000)
                         (login_user_of u)).
Proof.
  apply (@login_success_means Toy.bcrypt Toy.jwt secret registered 1000 1000
           login_alice).
  reflexivity.
Defined.

(** Bob logs in at 1010 and uses his token at 1200. *)
Lemma login_token_passes_guard_witness :
  @verifyUser Toy.jwt secret
    (snd (@post_login Toy.bcrypt Toy.jwt secret alice_in 1010 1010 login_bob))
    1200 (bearer bob_token (targets None))
  = inr bob.
Proof.
  apply (@login_token_passes_guard Toy.bcrypt Toy.jwt secret alice_in
           1010 1010 1200 login_bob (bearer bob_token (targets None))
           new_bob "builder").
  - discriminate.
  - apply consistentb_sound. reflexivity.
  - simpl. right. left. reflexivity.
  - discriminate.
  - reflexivity.
  - reflexivity.
  - reflexivity.
  - reflexivity.
  - discriminate.
  - reflexivity.
Defined.

(** Bob uses his token of 1010 at 4610. *)
Lemma expired_token_rejected_witness :
  @verifyUser Toy.jwt secret both_in 4610 (bearer bob_token (targets None))
  = inl (error_json 401 "Invalid token").
Proof.
  apply (@expired_token_rejected Toy.jwt secret both_in 1010 4610 2
           (bearer bob_token (targets None))).
  - discriminate.
  - reflexivity.
  - discriminate.
  - discriminate.
Defined.

(** Alice deletes Bob at 1100; Bob uses his token at 1200. *)
Lemma deleted_account_token_rejected_witness :
  fst (@post_delete Toy.jwt Toy.pg secret both_in 1100
         (bearer alice_token (targets (Some [2]))))
  = ok_json (JsonMessage "User deleted successfully!") /\
  @verifyUser Toy.jwt secret
    (snd (@post_delete Toy.jwt Toy.pg secret both_in 1100
            (bearer alice_token (targets (Some [2])))))
    1200 (bearer bob_token (targets None))
  = inl (error_json 403 "User not found").
Proof.
  apply (@deleted_account_token_rejected Toy.jwt Toy.pg secret both_in 1100
           1200 (bearer alice_token (targets (Some [2])))
           (bearer bob_token (targets None)) alice [IdNumber 2] [2] bob_token
           {| jwt_id := Some 2; jwt_iat := 1010; jwt_exp := 4610 |} 2).
  - reflexivity.
  - reflexivity.
  - reflexivity.
  - reflexivity.
  - reflexivity.
  - discriminate.
  - reflexivity.
  - reflexivity.
  - simpl. left. reflexivity.
Defined.

(** Alice blocks Bob and unblocks him. *)
Lemma block_then_unblock_restores_witness :
  fst (@post_block Toy.jwt Toy.pg secret both_in 1100
         (bearer alice_token (targets (Some [2]))))
  = ok_json (JsonMessage "Users blocked successfully!") /\
  @post_unblock Toy.jwt Toy.pg secret
    (snd (@post_block Toy.jwt Toy.pg secret both_in 1100
            (bearer alice_token (targets (Some [2])))))
    1100 (bearer alice_token (targets (Some [2])))
  = (ok_json (JsonMessage "User unblocked successfully!"), both_in).
Proof.
  apply (@block_then_unblock_restores Toy.jwt Toy.pg secret both_in 1100
           (bearer alice_token (targets (Some [2]))) alice [IdNumber 2] [2]).
  - reflexivity.
  - reflexivity.
  - reflexivity.
  - simpl. intros [H | H]; [discriminate H | exact H].
  - simpl. intros u [<- | [<- | []]] _; reflexivity.
Defined.

(** Alice asks to delete herself and Bob. *)
Lemma delete_self_rejects_whole_batch_witness :
  @post_delete Toy.jwt Toy.pg secret both_in 1100
    (bearer alice_token (targets (Some [1; 2])))
  = (error_json 403 "Cannot delete yourself", both_in).
Proof.
  apply (@delete_self_rejects_whole_batch Toy.jwt Toy.pg secret both_in 1100
           (bearer alice_token (targets (Some [1; 2]))) alice
           [IdNumber 1; IdNumber 2]).
  - reflexivity.
  - reflexivity.
  - simpl. left. reflexivity.
Defined.

(** Alice blocks, unblocks and deletes the ids 7 and 9, which nobody has. *)
Lemma bulk_unknown_ids_no_effect_witness :
  @post_block Toy.jwt Toy.pg secret both_in 1100
    (bearer alice_token (targets (Some [7; 9])))
  = (ok_json (JsonMessage "Users blocked successfully!"), both_in) /\
  @post_unblock Toy.jwt Toy.pg secret both_in 1100
    (bearer alice_token (targets (Some [7; 9])))
  = (ok_json (JsonMessage "User unblocked successfully!"), both_in) /\
  @post_delete Toy.jwt Toy.pg secret both_in 1100
    (bearer alice_token (targets (Some [7; 9])))
  = (ok_json (JsonMessage "User deleted successfully!"), both_in).
Proof.
  apply (@bulk_unknown_ids_no_effect Toy.jwt Toy.pg secret both_in 1100
           (bearer alice_token (targets (Some [7; 9]))) alice
           [IdNumber 7; IdNumber 9] [7; 9]).
  - reflexivity.
  - reflexivity.
  - reflexivity.
  - simpl. intros u [<- | [<- | []]] [H | [H | H]];
      try discriminate H; exact H.
Defined.

(** Bob, blocked, asks to unblock himself. *)
Lemma blocked_account_cannot_act_witness :
  @post_unblock Toy.jwt Toy.pg secret bob_blocked 1200
    (bearer bob_token (targets (Some [2])))
  = (error_json 403 "Your account has been blocked", bob_blocked).
Proof.
  destruct (@blocked_account_cannot_act Toy.jwt Toy.pg secret Toy.to_char
              bob_blocked
              1200 (bearer bob_token (targets (Some [2]))) blocked_bob
              bob_token {| jwt_id := Some 2; jwt_iat := 1010; jwt_exp := 4610 |})
    as [_ [_ [Hunblock _]]].
  - apply consistentb_sound. reflexivity.
  - simpl. right. left. reflexivity.
  - reflexivity.
  - reflexivity.
  - discriminate.
  - reflexivity.
  - reflexivity.
  - exact Hunblock.
Defined.

(** Alice's token under the word "Token". *)
Lemma guard_ignores_scheme_witness :
  @verifyUser Toy.jwt secret both_in 1100
    {| authorization := Some ("Token" ++ " " ++ alice_token);
       req_body := targets None |}
  = @verifyUser Toy.jwt secret both_in 1100
      {| authorization := Some ("Bearer " ++ alice_token);
         req_body := targets None |}.
Proof.
  apply (@guard_ignores_scheme Toy.jwt secret both_in 1100 "Token" alice_token
           (targets None)).
  - reflexivity.
  - reflexivity.
Defined.

(** The header "Bearer", without a token. *)
Lemma header_without_space_unauthorized_witness :
  @verifyUser Toy.jwt secret both_in 1100
    {| authorization := Some "Bearer"; req_body := targets None |}
  = inl (error_json 401 "Unauthorized").
Proof.
  apply (@header_without_space_unauthorized Toy.jwt secret both_in 1100
           "Bearer" (targets None)).
  reflexivity.
Defined.

(** Bob is deleted and his email registered again: nobody has the id 2. *)
Lemma id_never_reused_witness :
  ~ In 2 (map user_id
            (users (snd (@post_register Toy.bcrypt bob_deleted "s4"
                           register_robert)))).
Proof.
  intros Hin. apply in_map_iff in Hin as [u' [Hid Hu']].
  apply (@id_never_reused Toy.bcrypt Toy.jwt Toy.pg secret bob_deleted
           (snd (@post_register Toy.bcrypt bob_deleted "s4" register_robert)) 2)
    with (u' := u').
  - apply (served_more secret bob_deleted bob_deleted); [apply served_none|].
    apply served_register.
  - reflexivity.
  - simpl. intros u [<- | []]. discriminate.
  - exact Hu'.
  - exact Hid.
Defined.

(** Bob before and after Alice blocked him. *)
Lemma account_fields_immutable_witness :
  user_name blocked_bob = user_name bob /\
  user_email blocked_bob = user_email bob /\
  user_password blocked_bob = user_password bob.
Proof.
  apply (@account_fields_immutable Toy.bcrypt Toy.jwt Toy.pg secret both_in
           bob_blocked
           bob blocked_bob).
  - apply consistentb_sound. reflexivity.
  - apply (served_more secret both_in both_in); [apply served_none|].
    exact (served_block secret both_in 1100
             (bearer alice_token (targets (Some [2])))).
  - simpl. right. left. reflexivity.
  - simpl. right. left. reflexivity.
  - reflexivity.
Defined.

(** Bob in the store that the two registrations lead to. *)
Lemma status_active_or_blocked_witness :
  user_status new_bob = "active" \/ user_status new_bob = "blocked".
Proof.
  apply (@status_active_or_blocked Toy.bcrypt Toy.jwt Toy.pg secret registered
           new_bob).
  - apply (reachable_served secret
             (snd (@post_register Toy.bcrypt empty_database "s1" register_alice))
             registered).
    + apply (reachable_served secret empty_database); [apply reachable_empty|].
      apply served_register.
    + exact (served_register secret _ "s2" register_bob).
  - simpl. right. left. reflexivity.
Defined.

(** A GET request for [/users], with no file of that name. *)
Lemma get_routes_shadowed_witness :
  dispatch exact_or_star (fun _ => false) GET "/users" = IndexHtml /\
  dispatch exact_or_star (fun _ => false) GET "/users" <> Users.
Proof.
  destruct (get_routes_shadowed exact_or_star (fun _ => false) GET "/users")
    as [Hget [Husers _]].
  - intros p. reflexivity.
  - split; [|exact Husers].
    destruct (Hget eq_refl) as [H | H]; [discriminate H | exact H].
Defined.

(** Clicking the box of Bob twice when Alice and Bob are selected. *)
Lemma handleSelectUser_twice_witness :
  NoDup (handleSelectUser 2 [1; 2]) /\
  Permutation (handleSelectUser 2 (handleSelectUser 2 [1; 2])) [1; 2].
Proof.
  apply (handleSelectUser_twice 2 [1; 2]).
  constructor; [simpl; intros [H | []]; discriminate H|].
  constructor; [simpl; tauto | constructor].
Defined.

(** Both listed accounts selected one by one. *)
Lemma select_all_checked_iff_witness :
  select_all_checked [1; 2] listed_both = true <->
  listed_both <> [] /\
  forall u, In u listed_both -> row_checked [1; 2] u = true.
Proof.
  apply (select_all_checked_iff [1; 2] listed_both).
  - simpl. constructor; [simpl; intros [H | []]; discriminate H|].
    constructor; [simpl; tauto | constructor].
  - constructor; [simpl; intros [H | []]; discriminate H|].
    constructor; [simpl; tauto | constructor].
  - intros i Hi. simpl in *. tauto.
Defined.

(** Alice selects all the accounts she is shown and asks to block them. *)
Lemma select_all_then_bulk_rejected_witness :
  @post_block Toy.jwt Toy.pg secret both_in 1100
    (bulk_request (Some alice_token) (handleSelectAll true listed_both))
  = (error_json 403 "You cannot block yourself", both_in) /\
  @post_delete Toy.jwt Toy.pg secret both_in 1100
    (bulk_request (Some alice_token) (handleSelectAll true listed_both))
  = (error_json 403 "Cannot delete yourself", both_in).
Proof.
  apply (@select_all_then_bulk_rejected Toy.jwt Toy.pg secret Toy.to_char
           both_in
           1050 1100 (bearer alice_token (targets None)) alice listed_both
           (Some alice_token)).
  - reflexivity.
  - reflexivity.
  - reflexivity.
Defined.

(* ===================================================================== *)
(** ** Further properties: logging in and the guard, deleting and logging in *)
(* ===================================================================== *)

Section Sessions.

Context {bcrypt : Bcrypt} {jwt : Jwt} {pg : Postgres}.
Variable JWT_SECRET : string.

Lemma select_by_id_update_last_login (db : database) (now i : Z)
    (j : option Z) :
  select_users_by_id (update_last_login db now i) j =
  map (fun u => if (user_id u =? i)%Z then with_last_login (Some now) u else u)
      (select_users_by_id db j).
Proof.
  destruct j as [j|]; [|reflexivity]. simpl.
  induction (users db) as [|u l IH]; simpl; [reflexivity|].
  replace (user_id (if (user_id u =? i)%Z
                    then with_last_login (Some now) u else u))
    with (user_id u) by (now destruct (user_id u =? i)%Z).
  destruct (user_id u =? j)%Z; simpl; now rewrite IH.
Qed.

(** X27. A login, by anyone, neither revokes nor grants access: on the store
    it leaves behind the guard gives the verdict it gave before, to every
    token, and attaches the same account up to its [last_login]. Tokens of
    earlier logins stay good. *)
Theorem login_does_not_change_guard
    (db : database) (clock now t : Z) (req guarded : request) :
  match verifyUser JWT_SECRET db t guarded,
        verifyUser JWT_SECRET (snd (post_login JWT_SECRET db clock now req))
                   t guarded with
  | inl res, inl res' => res = res'
  | inr u, inr u' => u' = with_last_login (user_last_login u') u
  | _, _ => False
  end.
Proof.
  assert (Hsame : match verifyUser JWT_SECRET db t guarded,
                        verifyUser JWT_SECRET db t guarded with
                  | inl res, inl res' => res = res'
                  | inr u, inr u' => u' = with_last_login (user_last_login u') u
                  | _, _ => False
                  end).
  { destruct (verifyUser JWT_SECRET db t guarded) as [res|u];
      [reflexivity | now destruct u]. }
  unfold post_login.
  destruct (select_users_by_email _ _) as [|v l]; [exact Hsame|].
  destruct (String.eqb (user_status v) "blocked"); [exact Hsame|].
  destruct (body_password _); [|exact Hsame].
  destruct (negb _); [exact Hsame|]. cbn [snd]. clear Hsame.
  unfold verifyUser.
  destruct (bearer_token guarded) as [token|]; [|reflexivity].
  destruct (String.eqb token ""); [reflexivity|].
  destruct (jwt_verify token JWT_SECRET t) as [e|decoded]; [reflexivity|].
  rewrite select_by_id_update_last_login.
  destruct (select_users_by_id db (jwt_id decoded)) as [|u l']; [reflexivity|].
  simpl.
  replace (user_status (if (user_id u =? user_id v)%Z
                        then with_last_login (Some now) u else u))
    with (user_status u) by (now destruct (user_id u =? user_id v)%Z).
  destruct (String.eqb (user_status u) "blocked"); [reflexivity|].
  destruct (user_id u =? user_id v)%Z; [reflexivity | now destruct u].
Qed.

(** X28. Once [/delete] has gone through with the id of an account among the
    ids PostgreSQL read from [userIds], logging in with the email of that
    account is answered 400 "Invalid credentials", like an email that was
    never registered, whatever the password. *)
Theorem deleted_account_cannot_login
    (db : database) (clock_d clock now : Z) (req_d req : request)
    (actor u : user) (userIds : list id_value) (ids : list Z) :
  consistent db ->
  verifyUser JWT_SECRET db clock_d req_d = inr actor ->
  body_userIds (req_body req_d) = Some userIds ->
  int4_array userIds = Some ids ->
  js_includes userIds (user_id actor) = false ->
  In u (users db) -> In (user_id u) ids ->
  body_email (req_body req) = Some (user_email u) ->
  fst (post_delete JWT_SECRET db clock_d req_d)
  = ok_json (JsonMessage "User deleted successfully!") /\
  post_login JWT_SECRET (snd (post_delete JWT_SECRET db clock_d req_d))
             clock now req
  = (error_json 400 "Invalid credentials",
     snd (post_delete JWT_SECRET db clock_d req_d)).
Proof.
  intros Hc Hguard Hids Hread Hjs Hin Htarget Hemail.
  unfold post_delete, protected. rewrite Hguard.
  rewrite (delete_handler_read db actor req_d userIds ids Hids Hread Hjs).
  cbn [fst snd]. split; [reflexivity|].
  unfold post_login. rewrite Hemail.
  rewrite select_by_email_absent; [reflexivity|].
  intros v Hv Heq. simpl in Hv. apply filter_In in Hv as [Hv Hkept].
  injection Heq as Heq.
  assert (v = u) as ->
    by (apply (unique_key_inj user_email (users db)); trivial;
        apply (emails_unique db Hc)).
  apply includes_In in Htarget. now rewrite Htarget in Hkept.
Qed.

End Sessions.

(** Alice deletes Bob; Bob logs in with his password. *)
Lemma deleted_account_cannot_login_witness :
  fst (@post_delete Toy.jwt Toy.pg secret both_in 1100
         (bearer alice_token (targets (Some [2]))))
  = ok_json (JsonMessage "User deleted successfully!") /\
  @post_login Toy.bcrypt Toy.jwt secret
    (snd (@post_delete Toy.jwt Toy.pg secret both_in 1100
            (bearer alice_token (targets (Some [2])))))
    1200 1200 login_bob
  = (error_json 400 "Invalid credentials",
     snd (@post_delete Toy.jwt Toy.pg secret both_in 1100
            (bearer alice_token (targets (Some [2]))))).
Proof.
  apply (@deleted_account_cannot_login Toy.bcrypt Toy.jwt Toy.pg secret both_in
           1100 1200 1200 (bearer alice_token (targets (Some [2]))) login_bob
           alice bob [IdNumber 2] [2]).
  - apply consistentb_sound. reflexivity.
  - reflexivity.
  - reflexivity.
  - reflexivity.
  - reflexivity.
  - simpl. right. left. reflexivity.
  - simpl. left. reflexivity.
  - reflexivity.
Defined.
